(** * perjmi/spawithdata: bar aggregation, chart filtering and trade simulation

    A shallow embedding of [src/chart-renderer.js] (modules ChartRenderer
    and DataProcessor) and [src/trade-simulator.js] (module TradeSimulator),
    followed by the properties of the three modules.

    Numbers.  JavaScript numbers are IEEE 754 binary64 values: prices,
    percentages and the simulator's [triggerBar] are primitive floats
    with the kernel's arithmetic and comparisons, so NaN, the infinities,
    the two zeros and rounding are those of the program.  Array lengths,
    loop indices and the counters of [simulate] are natural numbers, and
    the values that the controller obtains with [parseInt] (the bar
    number of a bar filter, a bars option) are integers.

    Objects.  Arrays are lists, object literals are records, and a
    property that may be absent or [undefined] is an [option].

    Effects.  The module variable [processedCharts] is passed as an
    argument; loops thread their local variables; a call that may read a
    property of [undefined] ends in [Return] or in [ThrowTypeError]. *)

From Stdlib Require Import ZArith List String Ascii Bool Floats Lia.
From Stdlib Require Import DecimalString Permutation.
Import ListNotations.

Local Open Scope bool_scope.

(* ================================================================= *)
(** ** JavaScript numbers *)

Module JSNum.

Local Open Scope float_scope.

(** *** Array access and array lengths *)

(** [index_of x] is the array index a number denotes: the property key
    of [x] is an index exactly when [x] is a non-negative integer
    ([-0] reads element 0).  [a[x]] is element [i] of [a] when
    [index_of x = Some i], and [undefined] for every other number
    (negative, fractional, infinite or NaN). *)
Definition index_of (x : float) : option nat :=
  match Prim2SF x with
  | S754_zero _ => Some 0%nat
  | S754_finite false m e =>
      if (0 <=? e)%Z then Some (Z.to_nat (Z.pos m * 2 ^ e))
      else if (Z.pos m mod 2 ^ (- e) =? 0)%Z
           then Some (Z.to_nat (Z.pos m / 2 ^ (- e)))
           else None
  | _ => None
  end.

(** [a[z]] for an integer [z]; [None] is [undefined]. *)
Definition getZ {A : Type} (a : list A) (z : Z) : option A :=
  if (z <? 0)%Z then None else nth_error a (Z.to_nat z).

(** [x >= a.length], for a number [x] and the length [n] of an array.
    A length is an integer below 2^32, which binary64 holds exactly, so
    the comparison is that of the value of [x] with [n]; it is false
    when [x] is NaN. *)
Definition ge_length (x : float) (n : nat) : bool :=
  match Prim2SF x with
  | S754_nan => false
  | S754_infinity s => negb s
  | S754_zero _ => (n =? 0)%nat
  | S754_finite true _ _ => false
  | S754_finite false m e =>
      if (0 <=? e)%Z then (Z.of_nat n <=? Z.pos m * 2 ^ e)%Z
      else (Z.of_nat n * 2 ^ (- e) <=? Z.pos m)%Z
  end.

(** An integer counter read as a number (exact below 2^53). *)
Definition of_nat (n : nat) : float :=
  of_uint63 (Uint63.of_Z (Z.of_nat n)).

(** *** [Math.max] and [Math.min] *)

Definition is_pos_zero (x : float) : bool :=
  match Prim2SF x with S754_zero false => true | _ => false end.

Definition is_neg_zero (x : float) : bool :=
  match Prim2SF x with S754_zero true => true | _ => false end.

(** The loop of [Math.max]: a NaN argument gives NaN, [+0] is above
    [-0], otherwise the running value moves on [number > highest]. *)
Fixpoint max_from (highest : float) (numbers : list float) : float :=
  match numbers with
  | [] => highest
  | number :: rest =>
      if is_nan number then nan
      else if is_pos_zero number && is_neg_zero highest
           then max_from number rest
      else if highest <? number then max_from number rest
      else max_from highest rest
  end.

Definition Math_max (numbers : list float) : float :=
  max_from neg_infinity numbers.

Fixpoint min_from (lowest : float) (numbers : list float) : float :=
  match numbers with
  | [] => lowest
  | number :: rest =>
      if is_nan number then nan
      else if is_neg_zero number && is_pos_zero lowest
           then min_from number rest
      else if number <? lowest then min_from number rest
      else min_from lowest rest
  end.

Definition Math_min (numbers : list float) : float :=
  min_from infinity numbers.

Definition no_nan (l : list float) : Prop :=
  Forall (fun x => is_nan x = false) l.

End JSNum.

(* ================================================================= *)
(** ** ChartRenderer (src/chart-renderer.js, lines 144-214) *)

Module ChartRenderer.

Import JSNum.
Local Open Scope float_scope.

(** A bar is the array [[timestamp_ms, open, high, low, close]]; the
    fields are its elements 0 to 4. *)
Record Bar : Type := mkBar {
  timestamp : float;
  open : float;
  high : float;
  low : float;
  close : float
}.

(** [a.slice(start, stop)] for [0 <= start <= stop]. *)
Definition slice {A : Type} (a : list A) (start stop : nat) : list A :=
  firstn (stop - start) (skipn start a).

(** The bar built from a non-empty chunk whose first bar is [first]. *)
Definition aggregated (first : Bar) (chunk : list Bar) : Bar :=
  {| timestamp := timestamp first;
     open := open first;
     high := Math_max (map high chunk);
     low := Math_min (map low chunk);
     close := close (last chunk first) |}.

(** The [for] loop of [aggregateToFrequency]: [i] advances by
    [barsPerPeriod] while [i < bars5min.length]; one unit of fuel per
    iteration. *)
Fixpoint aggregateLoop (fuel : nat) (bars5min : list Bar)
    (barsPerPeriod i : nat) (result : list Bar) : list Bar :=
  match fuel with
  | O => result
  | S fuel' =>
      if (i <? List.length bars5min)%nat then
        let chunk := slice bars5min i (i + barsPerPeriod) in
        match chunk with
        | [] => aggregateLoop fuel' bars5min barsPerPeriod (i + barsPerPeriod) result
        | first :: _ =>
            aggregateLoop fuel' bars5min barsPerPeriod (i + barsPerPeriod)
              (result ++ [aggregated first chunk])
        end
      else result
  end.

Definition aggregateToFrequency (bars5min : list Bar) (targetFreq : string)
    : list Bar :=
  if (targetFreq =? "5min")%string then bars5min
  else
    let periodMinutes := if (targetFreq =? "10min")%string then 10%nat else 15%nat in
    let barsPerPeriod := (periodMinutes / 5)%nat in
    aggregateLoop (List.length bars5min) bars5min barsPerPeriod 0 [].

(** The callback of [calculateBarDirections]. *)
Definition barDirection (bar : Bar) : string :=
  if open bar <? close bar then "UP"%string
  else if close bar <? open bar then "DOWN"%string
  else "FLAT"%string.

Definition calculateBarDirections (bars : list Bar) : list string :=
  map barDirection bars.

(** The callback of [calculateBodyRatios]. *)
Definition bodyRatio (bar : Bar) : string :=
  let range := high bar - low bar in
  if range <=? 0 then "<25%"%string
  else
    let body := abs (close bar - open bar) in
    let ratio := (body / range) * 100 in
    if ratio <? 25 then "<25%"%string
    else if ratio <? 50 then "25-50%"%string
    else if ratio <? 75 then "50-75%"%string
    else ">75%"%string.

Definition calculateBodyRatios (bars : list Bar) : list string :=
  map bodyRatio bars.

End ChartRenderer.

(* ================================================================= *)
(** ** DataProcessor (src/chart-renderer.js, lines 563-852) *)

Module DataProcessor.

Import JSNum.
Import ChartRenderer.

(** An element of [processedCharts] (built by [processCharts]).  The two
    previous-day flags are JSON values: [Some b] is the boolean [b],
    [None] stands for anything that is not a boolean. *)
Module Entry.
Record t : Type := mk {
  source : string;
  timezone : string;
  tradingHours : string;
  date : string;
  gapDirection : string;
  gapSizeClass : string;
  openAbovePrevHigh : option bool;
  closeBelowPrevLow : option bool;
  prevClose : float;
  prevHigh : float;
  prevLow : float;
  bars : list Bar;
  barDirections : list string;
  bodyRatios : list string
}.
End Entry.

(** The object returned by [getTradingDayData]. *)
Module ChartData.
Record t : Type := mk {
  source : string;
  timezone : string;
  tradingHours : string;
  date : string;
  frequency : string;
  maxBars : Z;
  gapDirection : string;
  gapSizeClass : string;
  openAbovePrevHigh : option bool;
  closeBelowPrevLow : option bool;
  prevClose : float;
  prevHigh : float;
  prevLow : float;
  bars : list Bar;
  barDirections : list string;
  bodyRatios : list string
}.
End ChartData.

(** An element of the result of [getFilteredCharts]:
    [{...chartData, key}]. *)
Module Chart.
Record t : Type := mk {
  data : ChartData.t;
  key : string
}.
Definition bars (c : t) : list Bar := ChartData.bars (data c).
End Chart.

(** An element of [filters.barFilters]; [bar] comes from [parseInt] in
    the controller ([addBarFilter]), [bodyRatio] may be absent. *)
Module BarFilter.
Record t : Type := mk {
  bar : Z;
  direction : string;
  bodyRatio : option string
}.
End BarFilter.

(** The argument of [getFilteredCharts]; an absent property ([None])
    takes the default of the destructuring pattern. *)
Module Filters.
Record t : Type := mk {
  sources : option (list string);
  frequencies : option (list string);
  barsOptions : option (list Z);
  gapDirections : option (list string);
  gapSizeClasses : option (list string);
  prevDayFilters : option (list string);
  barFilters : option (list BarFilter.t)
}.
End Filters.

Definition default {A : Type} (d : A) (o : option A) : A :=
  match o with Some a => a | None => d end.

(** [a.includes(s)] on an array of strings. *)
Definition includes (a : list string) (s : string) : bool :=
  existsb (String.eqb s) a.

(** The template literal [`${z}`] of an integer. *)
Definition string_of_Z (z : Z) : string :=
  NilZero.string_of_int (Z.to_int z).

(** [a.slice(0, stop)] for an integer [stop]: a negative [stop] counts
    from the end of the array. *)
Definition slice0 {A : Type} (a : list A) (stop : Z) : list A :=
  if (stop <? 0)%Z
  then firstn (Z.to_nat (Z.max (Z.of_nat (List.length a) + stop) 0)) a
  else firstn (Z.to_nat stop) a.

Definition getTradingDayData (processedCharts : list Entry.t)
    (sourceName date frequency : string) (maxBars : Z) : option ChartData.t :=
  match find (fun c => (Entry.source c =? sourceName)%string
                       && (Entry.date c =? date)%string) processedCharts with
  | None => None
  | Some entry =>
      let bars := Entry.bars entry in
      let bars := aggregateToFrequency bars frequency in
      let bars :=
        if (maxBars <? 999)%Z && (maxBars <? Z.of_nat (List.length bars))%Z
        then slice0 bars maxBars else bars in
      let barDirections := calculateBarDirections bars in
      let bodyRatios := calculateBodyRatios bars in
      Some {| ChartData.source := Entry.source entry;
              ChartData.timezone := Entry.timezone entry;
              ChartData.tradingHours := Entry.tradingHours entry;
              ChartData.date := Entry.date entry;
              ChartData.frequency := frequency;
              ChartData.maxBars := maxBars;
              ChartData.gapDirection := Entry.gapDirection entry;
              ChartData.gapSizeClass := Entry.gapSizeClass entry;
              ChartData.openAbovePrevHigh := Entry.openAbovePrevHigh entry;
              ChartData.closeBelowPrevLow := Entry.closeBelowPrevLow entry;
              ChartData.prevClose := Entry.prevClose entry;
              ChartData.prevHigh := Entry.prevHigh entry;
              ChartData.prevLow := Entry.prevLow entry;
              ChartData.bars := bars;
              ChartData.barDirections := barDirections;
              ChartData.bodyRatios := bodyRatios |}
  end.

(** *** Loading (lines 563-666) *)

(** A trading day of the data file, as [processCharts] reads it;
    [bodyRatios] may be absent. *)
Module Day.
Record t : Type := mk {
  date : string;
  gapDirection : string;
  gapSizeClass : string;
  openAbovePrevHigh : option bool;
  closeBelowPrevLow : option bool;
  prevClose : float;
  prevHigh : float;
  prevLow : float;
  bars : list Bar;
  barDirections : list string;
  bodyRatios : option (list string)
}.
End Day.

(** A source of the data file. *)
Module Source.
Record t : Type := mk {
  name : string;
  timezone : string;
  tradingHours : string;
  tradingDays : list Day.t
}.
End Source.

(** The module variable [rawData]: [None] is [null] (nothing loaded),
    and [sources] may be absent. *)
Module RawData.
Record t : Type := mk {
  sources : option (list Source.t)
}.
End RawData.

(** The object pushed by [processCharts] for a day of a source. *)
Definition entryOf (source : Source.t) (day : Day.t) : Entry.t :=
  {| Entry.source := Source.name source;
     Entry.timezone := Source.timezone source;
     Entry.tradingHours := Source.tradingHours source;
     Entry.date := Day.date day;
     Entry.gapDirection := Day.gapDirection day;
     Entry.gapSizeClass := Day.gapSizeClass day;
     Entry.openAbovePrevHigh := Day.openAbovePrevHigh day;
     Entry.closeBelowPrevLow := Day.closeBelowPrevLow day;
     Entry.prevClose := Day.prevClose day;
     Entry.prevHigh := Day.prevHigh day;
     Entry.prevLow := Day.prevLow day;
     Entry.bars := Day.bars day;
     Entry.barDirections := Day.barDirections day;
     Entry.bodyRatios := default [] (Day.bodyRatios day) |}.

(** [for (const day of source.tradingDays)], threading [processedCharts]. *)
Fixpoint daysLoop (source : Source.t) (days : list Day.t)
    (processedCharts : list Entry.t) : list Entry.t :=
  match days with
  | [] => processedCharts
  | day :: rest => daysLoop source rest (processedCharts ++ [entryOf source day])
  end.

(** [for (const source of rawData.sources)], threading [processedCharts]. *)
Fixpoint sourcesLoop (sources : list Source.t) (processedCharts : list Entry.t)
    : list Entry.t :=
  match sources with
  | [] => processedCharts
  | source :: rest =>
      sourcesLoop rest (daysLoop source (Source.tradingDays source) processedCharts)
  end.

(** [processCharts()]: the new value of [processedCharts]. *)
Definition processCharts (rawData : option RawData.t) : list Entry.t :=
  match rawData with
  | None => []
  | Some raw =>
      match RawData.sources raw with
      | None => []
      | Some sources => sourcesLoop sources []
      end
  end.

Definition getSources (rawData : option RawData.t) : list string :=
  match rawData with
  | None => []
  | Some raw =>
      match RawData.sources raw with
      | None => []
      | Some sources => map Source.name sources
      end
  end.

(** The object returned by [getSourceMetadata]. *)
Module Metadata.
Record t : Type := mk {
  timezone : string;
  tradingHours : string
}.
End Metadata.

Definition getSourceMetadata (rawData : option RawData.t) (sourceName : string)
    : option Metadata.t :=
  match rawData with
  | None => None
  | Some raw =>
      match RawData.sources raw with
      | None => None
      | Some sources =>
          match find (fun s => (Source.name s =? sourceName)%string) sources with
          | None => None
          | Some source =>
              Some {| Metadata.timezone := Source.timezone source;
                      Metadata.tradingHours := Source.tradingHours source |}
          end
      end
  end.

(** The loop of [getMaxBarCount], threading [maxBars]. *)
Fixpoint maxBarsLoop (charts : list Entry.t) (maxBars : nat) : nat :=
  match charts with
  | [] => maxBars
  | chart :: rest =>
      maxBarsLoop rest
        (if (maxBars <? List.length (Entry.barDirections chart))%nat
         then List.length (Entry.barDirections chart) else maxBars)
  end.

Definition getMaxBarCount (processedCharts : list Entry.t) : nat :=
  Nat.min (maxBarsLoop processedCharts 0) 120.

Definition getTotalTradingDays (processedCharts : list Entry.t) : nat :=
  List.length processedCharts.

(** [v !== true] for a flag of an entry. *)
Definition not_true (v : option bool) : bool :=
  match v with Some true => false | _ => true end.

(** The loop over [prevDayFilters] (lines 755-765): the value of
    [matchesPrevDay] when it ends. *)
Fixpoint matchesPrevDay (entry : Entry.t) (prevDayFilters : list string) : bool :=
  match prevDayFilters with
  | [] => true
  | filter :: rest =>
      if (filter =? "open_above_prev_high")%string
         && not_true (Entry.openAbovePrevHigh entry) then false
      else if (filter =? "close_below_prev_low")%string
              && not_true (Entry.closeBelowPrevLow entry) then false
      else matchesPrevDay entry rest
  end.

(** The four entry-level guards (lines 738-767): [false] when one of
    them runs [continue]. *)
Definition entryPasses (sources gapDirections gapSizeClasses prevDayFilters : list string)
    (entry : Entry.t) : bool :=
  if (0 <? List.length sources)%nat && negb (includes sources (Entry.source entry))
  then false
  else if (0 <? List.length gapDirections)%nat
          && negb (includes gapDirections (Entry.gapDirection entry))
  then false
  else if (0 <? List.length gapSizeClasses)%nat
          && negb (includes gapSizeClasses (Entry.gapSizeClass entry))
  then false
  else if (0 <? List.length prevDayFilters)%nat
  then matchesPrevDay entry prevDayFilters
  else true.

(** [x !== s] for an array element [x] (possibly [undefined]) and a
    string [s]. *)
Definition differs (x : option string) (s : string) : bool :=
  match x with
  | Some y => negb (y =? s)%string
  | None => true
  end.

(** [bf.bodyRatio && bf.bodyRatio !== 'any']: the non-wildcard class
    requested by a bar filter, if any. *)
Definition requestedBodyRatio (bf : BarFilter.t) : option string :=
  match BarFilter.bodyRatio bf with
  | Some r => if (r =? "")%string || (r =? "any")%string then None else Some r
  | None => None
  end.

(** The loop over [barFilters] (lines 787-809): the value of
    [matchesBarFilters] when it ends. *)
Fixpoint matchesBarFilters (chartData : ChartData.t) (barFilters : list BarFilter.t)
    : bool :=
  match barFilters with
  | [] => true
  | bf :: rest =>
      let barIndex := (BarFilter.bar bf - 1)%Z in
      if (Z.of_nat (List.length (ChartData.barDirections chartData)) <=? barIndex)%Z
      then false
      else if differs (getZ (ChartData.barDirections chartData) barIndex)
                      (BarFilter.direction bf)
      then false
      else
        match requestedBodyRatio bf with
        | Some r =>
            if (Z.of_nat (List.length (ChartData.bodyRatios chartData)) <=? barIndex)%Z
            then false
            else if differs (getZ (ChartData.bodyRatios chartData) barIndex) r
            then false
            else matchesBarFilters chartData rest
        | None => matchesBarFilters chartData rest
        end
  end.

(** The body of the two inner loops (lines 773-816) for one
    (entry, frequency, barsOption): the chart pushed, if any. *)
Definition generateChart (processedCharts : list Entry.t)
    (barFilters : list BarFilter.t) (entry : Entry.t) (freq : string) (barsOpt : Z)
    : option Chart.t :=
  match getTradingDayData processedCharts (Entry.source entry) (Entry.date entry)
          freq barsOpt with
  | None => None
  | Some chartData =>
      if (List.length (ChartData.bars chartData) <? 5)%nat then None
      else if (0 <? List.length barFilters)%nat
              && negb (matchesBarFilters chartData barFilters)
      then None
      else Some {| Chart.data := chartData;
                   Chart.key := Entry.source entry ++ "-" ++ Entry.date entry
                                ++ "-" ++ freq ++ "-" ++ string_of_Z barsOpt |}
  end.

(** [for (const barsOpt of barsOptions)], threading [results]. *)
Fixpoint barsOptionsLoop (processedCharts : list Entry.t)
    (barFilters : list BarFilter.t) (entry : Entry.t) (freq : string)
    (barsOptions : list Z) (results : list Chart.t) : list Chart.t :=
  match barsOptions with
  | [] => results
  | barsOpt :: rest =>
      let results :=
        match generateChart processedCharts barFilters entry freq barsOpt with
        | Some chart => results ++ [chart]
        | None => results
        end in
      barsOptionsLoop processedCharts barFilters entry freq rest results
  end.

(** [for (const freq of frequencies)], threading [results]. *)
Fixpoint frequenciesLoop (processedCharts : list Entry.t)
    (barFilters : list BarFilter.t) (entry : Entry.t) (frequencies : list string)
    (barsOptions : list Z) (results : list Chart.t) : list Chart.t :=
  match frequencies with
  | [] => results
  | freq :: rest =>
      frequenciesLoop processedCharts barFilters entry rest barsOptions
        (barsOptionsLoop processedCharts barFilters entry freq barsOptions results)
  end.

(** [for (const entry of processedCharts)], threading [results]; the
    first argument is the whole of [processedCharts], which
    [getTradingDayData] searches. *)
Fixpoint entriesLoop (processedCharts : list Entry.t)
    (sources frequencies : list string) (barsOptions : list Z)
    (gapDirections gapSizeClasses prevDayFilters : list string)
    (barFilters : list BarFilter.t)
    (entries : list Entry.t) (results : list Chart.t) : list Chart.t :=
  match entries with
  | [] => results
  | entry :: rest =>
      let results :=
        if entryPasses sources gapDirections gapSizeClasses prevDayFilters entry
        then frequenciesLoop processedCharts barFilters entry frequencies
               barsOptions results
        else results in
      entriesLoop processedCharts sources frequencies barsOptions gapDirections
        gapSizeClasses prevDayFilters barFilters rest results
  end.

(** [getFilteredCharts(filters)], with the module variable
    [processedCharts] passed explicitly. *)
Definition getFilteredCharts (processedCharts : list Entry.t) (filters : Filters.t)
    : list Chart.t :=
  let sources := default [] (Filters.sources filters) in
  let frequencies := default ["5min"%string] (Filters.frequencies filters) in
  let barsOptions := default [999%Z] (Filters.barsOptions filters) in
  let gapDirections := default [] (Filters.gapDirections filters) in
  let gapSizeClasses := default [] (Filters.gapSizeClasses filters) in
  let prevDayFilters := default [] (Filters.prevDayFilters filters) in
  let barFilters := default [] (Filters.barFilters filters) in
  entriesLoop processedCharts sources frequencies barsOptions gapDirections
    gapSizeClasses prevDayFilters barFilters processedCharts [].

End DataProcessor.

(* ================================================================= *)
(** ** TradeSimulator (src/trade-simulator.js) *)

Module TradeSimulator.

Import JSNum.
Import ChartRenderer.
Import DataProcessor.
Local Open Scope float_scope.

(** [params]: [{ triggerBar, direction, targetPct, stopPct }]. *)
Module Params.
Record t : Type := mk {
  triggerBar : float;
  direction : string;
  targetPct : float;
  stopPct : float
}.
End Params.

(** The three values of [outcome]: ['WIN'], ['LOSS'], ['SKIP']. *)
Inductive Outcome : Type := WIN | LOSS | SKIP.

(** The object returned by [simulateOne]; a property that the returned
    literal does not have is [None]. *)
Module Result.
Record t : Type := mk {
  outcome : Outcome;
  pnl : float;
  reason : option string;
  entry : option float;
  target : option float;
  stop : option float
}.
End Result.

(** An element of [trades]: [{ key: chart.key, ...result }]. *)
Module Trade.
Record t : Type := mk {
  key : string;
  result : Result.t
}.
End Trade.

(** The object returned by [simulate]. *)
Module Stats.
Record t : Type := mk {
  wins : nat;
  losses : nat;
  skipped : nat;
  decisive : nat;
  winRate : float;
  avgPnL : float;
  trades : list Trade.t
}.
End Stats.

(** How a call ends: with a value, or with the [TypeError] of reading
    a property of [undefined]. *)
Inductive completion (A : Type) : Type :=
| Return (value : A)
| ThrowTypeError.

Arguments Return {A} value.
Arguments ThrowTypeError {A}.

(** The truth value of what [isValid(params)] returns; [None] is a
    [null] or [undefined] argument. *)
Definition isValid (params : option Params.t) : bool :=
  match params with
  | None => false
  | Some params =>
      (0 <? Params.triggerBar params)
      && ((Params.direction params =? "Long")%string
          || (Params.direction params =? "Short")%string)
      && (0 <? Params.targetPct params)
      && (0 <? Params.stopPct params)
  end.

Definition hitTarget (direction : string) (targetPrice : float) (bar : Bar) : bool :=
  if (direction =? "Long")%string then targetPrice <=? high bar
  else low bar <=? targetPrice.

Definition hitStop (direction : string) (stopPrice : float) (bar : Bar) : bool :=
  if (direction =? "Long")%string then low bar <=? stopPrice
  else stopPrice <=? high bar.

(** The scan (lines 61-90) over [bars[triggerIndex + 1]], ..., the last
    bar: [subsequent] is that part of the array, in order. *)
Fixpoint scan (direction : string)
    (entry targetOffset stopOffset targetPrice stopPrice : float)
    (subsequent : list Bar) : Result.t :=
  match subsequent with
  | [] =>
      {| Result.outcome := SKIP; Result.pnl := 0;
         Result.reason := Some "end of day"%string;
         Result.entry := Some entry; Result.target := Some targetPrice;
         Result.stop := Some stopPrice |}
  | bar :: rest =>
      if hitTarget direction targetPrice bar && hitStop direction stopPrice bar then
        {| Result.outcome := SKIP; Result.pnl := 0;
           Result.reason := Some "both hit"%string;
           Result.entry := Some entry; Result.target := Some targetPrice;
           Result.stop := Some stopPrice |}
      else if hitTarget direction targetPrice bar then
        {| Result.outcome := WIN; Result.pnl := targetOffset;
           Result.reason := None;
           Result.entry := Some entry; Result.target := Some targetPrice;
           Result.stop := Some stopPrice |}
      else if hitStop direction stopPrice bar then
        {| Result.outcome := LOSS; Result.pnl := - stopOffset;
           Result.reason := None;
           Result.entry := Some entry; Result.target := Some targetPrice;
           Result.stop := Some stopPrice |}
      else scan direction entry targetOffset stopOffset targetPrice stopPrice rest
  end.

Definition simulateOne (chartData : Chart.t) (params : Params.t)
    : completion Result.t :=
  let bars := Chart.bars chartData in
  let triggerIndex := Params.triggerBar params - 1 in
  if ge_length triggerIndex (List.length bars) then
    Return {| Result.outcome := SKIP; Result.pnl := 0;
              Result.reason := Some "not enough bars"%string;
              Result.entry := None; Result.target := None; Result.stop := None |}
  else
    match index_of triggerIndex with
    | None => ThrowTypeError
    | Some i =>
        match nth_error bars i with
        | None => ThrowTypeError
        | Some triggerBar =>
            let entry := close triggerBar in
            let range := high triggerBar - low triggerBar in
            if range <=? 0 then
              Return {| Result.outcome := SKIP; Result.pnl := 0;
                        Result.reason := Some "zero range"%string;
                        Result.entry := Some entry;
                        Result.target := None; Result.stop := None |}
            else
              let targetOffset := (Params.targetPct params / 100) * range in
              let stopOffset := (Params.stopPct params / 100) * range in
              let targetPrice :=
                if (Params.direction params =? "Long")%string
                then entry + targetOffset else entry - targetOffset in
              let stopPrice :=
                if (Params.direction params =? "Long")%string
                then entry - stopOffset else entry + stopOffset in
              Return (scan (Params.direction params) entry targetOffset stopOffset
                        targetPrice stopPrice (skipn (S i) bars))
        end
    end.

(** The local variables of [simulate] that its loop updates. *)
Record Tally : Type := mkTally {
  trades : list Trade.t;
  wins : nat;
  losses : nat;
  skipped : nat;
  totalPnL : float
}.

(** One iteration of [for (const chart of charts)]. *)
Definition record (chart : Chart.t) (result : Result.t) (t : Tally) : Tally :=
  let trades := trades t ++ [ {| Trade.key := Chart.key chart; Trade.result := result |} ] in
  match Result.outcome result with
  | WIN => {| trades := trades; wins := S (wins t); losses := losses t;
              skipped := skipped t; totalPnL := totalPnL t + Result.pnl result |}
  | LOSS => {| trades := trades; wins := wins t; losses := S (losses t);
               skipped := skipped t; totalPnL := totalPnL t + Result.pnl result |}
  | SKIP => {| trades := trades; wins := wins t; losses := losses t;
               skipped := S (skipped t); totalPnL := totalPnL t |}
  end.

Fixpoint simulateLoop (params : Params.t) (charts : list Chart.t) (t : Tally)
    : completion Tally :=
  match charts with
  | [] => Return t
  | chart :: rest =>
      match simulateOne chart params with
      | ThrowTypeError => ThrowTypeError
      | Return result => simulateLoop params rest (record chart result t)
      end
  end.

(** The statistics computed after the loop (lines 125-137). *)
Definition finish (t : Tally) : Stats.t :=
  let decisive := (wins t + losses t)%nat in
  let winRate :=
    if (0 <? decisive)%nat then (of_nat (wins t) / of_nat decisive) * 100 else 0 in
  let avgPnL :=
    if (0 <? decisive)%nat then totalPnL t / of_nat decisive else 0 in
  {| Stats.wins := wins t; Stats.losses := losses t; Stats.skipped := skipped t;
     Stats.decisive := decisive; Stats.winRate := winRate; Stats.avgPnL := avgPnL;
     Stats.trades := trades t |}.

(** [simulate(charts, params)]; the value [None] is [null]. *)
Definition simulate (charts : list Chart.t) (params : option Params.t)
    : completion (option Stats.t) :=
  if negb (isValid params) then Return None
  else
    match params with
    | None => Return None
    | Some p =>
        match simulateLoop p charts
                {| trades := []; wins := 0; losses := 0; skipped := 0; totalPnL := 0 |} with
        | ThrowTypeError => ThrowTypeError
        | Return t => Return (Some (finish t))
        end
    end.

End TradeSimulator.

(* ================================================================= *)
(** ** The application controller (src/chart-renderer.js, lines 227-557) *)

Module Controller.

Import DataProcessor.

Definition MAX_CHARTS : nat := 50.

(** [a.sort((a, b) => a.bar - b.bar)]: the sort is stable, so its
    result is that of inserting the elements in turn, each one behind
    the elements whose bar is not greater. *)
Fixpoint insertByBar (f : BarFilter.t) (sorted : list BarFilter.t)
    : list BarFilter.t :=
  match sorted with
  | [] => [f]
  | g :: rest =>
      if (BarFilter.bar g <=? BarFilter.bar f)%Z then g :: insertByBar f rest
      else f :: g :: rest
  end.

Definition sortByBar (a : list BarFilter.t) : list BarFilter.t :=
  fold_left (fun sorted f => insertByBar f sorted) a [].

(** The object literal [{bar: barNum, direction}]. *)
Definition barFilterOf (barNum : Z) (direction : string) : BarFilter.t :=
  {| BarFilter.bar := barNum; BarFilter.direction := direction;
     BarFilter.bodyRatio := None |}.

(** [addBarFilter()]: the new value of the global [barFilters].  The
    two values read from the page are arguments: [barNum] is
    [parseInt(barSelect.value)], [None] when it is NaN. *)
Definition addBarFilter (barFilters : list BarFilter.t) (barNum : option Z)
    (direction : string) : list BarFilter.t :=
  match barNum with
  | None => barFilters
  | Some barNum =>
      if (barNum =? 0)%Z then barFilters
      else
        let exists_ := existsb (fun f => (BarFilter.bar f =? barNum)%Z) barFilters in
        let barFilters :=
          if exists_
          then map (fun f => if (BarFilter.bar f =? barNum)%Z
                             then barFilterOf barNum direction else f) barFilters
          else barFilters ++ [barFilterOf barNum direction] in
        sortByBar barFilters
  end.

(** [removeBarFilter(barNum)]: the new value of [barFilters]. *)
Definition removeBarFilter (barFilters : list BarFilter.t) (barNum : Z)
    : list BarFilter.t :=
  filter (fun f => negb (BarFilter.bar f =? barNum)%Z) barFilters.

(** [formatDate(dateStr)] on a string of UTF-16 code units; the same
    function is [Exporter.formatDate]. *)
Definition formatDate (dateStr : string) : string :=
  if (dateStr =? "")%string then "Unknown"%string
  else
    let str := dateStr in
    if negb (String.length str =? 8)%nat then dateStr
    else (substring 0 4 str ++ "-" ++ substring 4 2 str ++ "-"
          ++ substring 6 2 str)%string.

(** The charts that [applyFilters] displays and the total it reports. *)
Definition toDisplay (filteredCharts : list Chart.t) : list Chart.t :=
  firstn MAX_CHARTS filteredCharts.

End Controller.

(* ================================================================= *)
(** ** Facts about JavaScript numbers *)

Module JSNumFacts.

Import JSNum.
Local Open Scope float_scope.

(** *** The order of binary64 values, from the kernel's specification *)

Definition SFnan (a : spec_float) : bool :=
  match a with S754_nan => true | _ => false end.

Lemma SFcompare_nan a b :
  SFcompare a b = None <-> SFnan a = true \/ SFnan b = true.
Proof.
  destruct a as [ | [] | | [] ? ?], b as [ | [] | | [] ? ?];
    simpl; split; intros H; try discriminate; auto;
    destruct H; discriminate.
Qed.

Lemma SFcompare_swap a b :
  SFcompare b a = option_map CompOpp (SFcompare a b).
Proof.
  destruct a as [sa | sa | | sa ma ea], b as [sb | sb | | sb mb eb];
    try destruct sa; try destruct sb; simpl; try reflexivity;
    change (Pos.compare_cont Eq) with Pos.compare.
  - rewrite (Z.compare_antisym ea eb).
    destruct (ea ?= eb)%Z; simpl; try reflexivity.
    rewrite (Pos.compare_antisym ma mb).
    destruct (ma ?= mb)%positive; reflexivity.
  - rewrite (Z.compare_antisym ea eb).
    destruct (ea ?= eb)%Z; simpl; try reflexivity.
    rewrite (Pos.compare_antisym ma mb).
    destruct (ma ?= mb)%positive; reflexivity.
Qed.

Lemma SFcompare_refl a : SFnan a = false -> SFcompare a a = Some Eq.
Proof.
  destruct a as [ [] | [] | | [] m e]; simpl; intros H;
    try discriminate; try reflexivity;
    change (Pos.compare_cont Eq) with Pos.compare;
    rewrite Z.compare_refl, Pos.compare_refl; reflexivity.
Qed.

(** [a <= b] on specification floats, as a proposition. *)
Definition SFle (a b : spec_float) : Prop :=
  SFcompare a b = Some Lt \/ SFcompare a b = Some Eq.

Definition SFlt (a b : spec_float) : Prop := SFcompare a b = Some Lt.

Ltac cmp_cases :=
  repeat match goal with
  | H : context [ (?x ?= ?y)%Z ] |- _ =>
      destruct (Z.compare_spec x y); simpl in H
  | |- context [ (?x ?= ?y)%Z ] =>
      destruct (Z.compare_spec x y); simpl
  | H : context [ (?x ?= ?y)%positive ] |- _ =>
      destruct (Pos.compare_spec x y); simpl in H
  | |- context [ (?x ?= ?y)%positive ] =>
      destruct (Pos.compare_spec x y); simpl
  end.

Lemma SFcompare_trans a b c r :
  SFcompare a b = Some r -> SFcompare b c = Some r -> SFcompare a c = Some r.
Proof.
  destruct a as [sa | sa | | sa ma ea], b as [sb | sb | | sb mb eb],
    c as [sc | sc | | sc mc ec];
    try destruct sa; try destruct sb; try destruct sc; simpl;
    intros H1 H2; try discriminate; try assumption; try congruence;
    change (Pos.compare_cont Eq) with Pos.compare in *;
    cmp_cases; subst; try congruence; try lia.
Qed.

Lemma SFcompare_eq_l a b c :
  SFcompare a b = Some Eq -> SFcompare a c = SFcompare b c.
Proof.
  destruct a as [sa | sa | | sa ma ea], b as [sb | sb | | sb mb eb],
    c as [sc | sc | | sc mc ec];
    try destruct sa; try destruct sb; try destruct sc; simpl;
    intros H1; try discriminate; try reflexivity;
    change (Pos.compare_cont Eq) with Pos.compare in *;
    cmp_cases; subst; try congruence; try lia.
Qed.

Lemma SFle_trans a b c : SFle a b -> SFle b c -> SFle a c.
Proof.
  intros [H1 | H1] [H2 | H2]; unfold SFle.
  - left. exact (SFcompare_trans _ _ _ _ H1 H2).
  - left. pose proof (SFcompare_eq_l _ _ a H2) as E.
    rewrite (SFcompare_swap a b), (SFcompare_swap a c), H1 in E.
    destruct (SFcompare a c) as [[]|]; simpl in E; congruence.
  - left. rewrite (SFcompare_eq_l _ _ c H1). exact H2.
  - right. exact (SFcompare_trans _ _ _ _ H1 H2).
Qed.

Lemma SFle_lt_trans a b c : SFle a b -> SFlt b c -> SFlt a c.
Proof.
  intros [H1 | H1] H2; unfold SFlt in *.
  - exact (SFcompare_trans _ _ _ _ H1 H2).
  - rewrite (SFcompare_eq_l _ _ c H1). exact H2.
Qed.

Lemma SFlt_le_trans a b c : SFlt a b -> SFle b c -> SFlt a c.
Proof.
  intros H1 [H2 | H2]; unfold SFlt in *.
  - exact (SFcompare_trans _ _ _ _ H1 H2).
  - pose proof (SFcompare_eq_l _ _ a H2) as E.
    rewrite (SFcompare_swap a b), (SFcompare_swap a c), H1 in E.
    destruct (SFcompare a c) as [[]|]; simpl in E; congruence.
Qed.

(** *** The same facts on primitive floats *)

Lemma leb_SFle x y : (x <=? y) = true <-> SFle (Prim2SF x) (Prim2SF y).
Proof.
  rewrite leb_spec. unfold SFleb, SFle.
  destruct (SFcompare (Prim2SF x) (Prim2SF y)) as [[]|];
    split; intros H; try discriminate; auto; destruct H; discriminate.
Qed.

Lemma ltb_SFlt x y : (x <? y) = true <-> SFlt (Prim2SF x) (Prim2SF y).
Proof.
  rewrite ltb_spec. unfold SFltb, SFlt.
  destruct (SFcompare (Prim2SF x) (Prim2SF y)) as [[]|];
    split; intros H; try discriminate; auto.
Qed.

Lemma is_nan_SFnan x : is_nan x = SFnan (Prim2SF x).
Proof.
  unfold is_nan. rewrite eqb_spec. unfold SFeqb.
  destruct (SFnan (Prim2SF x)) eqn:E.
  - destruct (Prim2SF x); try discriminate. reflexivity.
  - rewrite (SFcompare_refl _ E). reflexivity.
Qed.

Lemma ltb_leb x y : (x <? y) = true -> (x <=? y) = true.
Proof. rewrite ltb_SFlt, leb_SFle. intros H. left. exact H. Qed.

Lemma leb_trans x y z :
  (x <=? y) = true -> (y <=? z) = true -> (x <=? z) = true.
Proof. rewrite !leb_SFle. apply SFle_trans. Qed.

Lemma leb_ltb_trans x y z :
  (x <=? y) = true -> (y <? z) = true -> (x <? z) = true.
Proof. rewrite leb_SFle, !ltb_SFlt. apply SFle_lt_trans. Qed.

Lemma ltb_leb_trans x y z :
  (x <? y) = true -> (y <=? z) = true -> (x <? z) = true.
Proof. rewrite leb_SFle, !ltb_SFlt. apply SFlt_le_trans. Qed.

Lemma ltb_irrefl x : (x <? x) = false.
Proof.
  rewrite ltb_spec. unfold SFltb.
  destruct (SFnan (Prim2SF x)) eqn:E.
  - destruct (Prim2SF x); try discriminate. reflexivity.
  - rewrite (SFcompare_refl _ E). reflexivity.
Qed.

Lemma leb_ltb_false x y : (x <=? y) = true -> (y <? x) = false.
Proof.
  intros H. destruct (y <? x) eqn:E; [ | reflexivity ].
  pose proof (leb_ltb_trans _ _ _ H E) as F.
  rewrite ltb_irrefl in F. discriminate.
Qed.

Lemma ltb_leb_false x y : (x <? y) = true -> (y <=? x) = false.
Proof.
  intros H. destruct (y <=? x) eqn:E; [ | reflexivity ].
  pose proof (leb_ltb_trans _ _ _ E H) as F.
  rewrite ltb_irrefl in F. discriminate.
Qed.

Lemma leb_refl x : is_nan x = false -> (x <=? x) = true.
Proof.
  rewrite is_nan_SFnan, leb_SFle. intros H. right.
  apply SFcompare_refl, H.
Qed.

(** Two numbers, neither of them NaN, are always comparable. *)
Lemma ltb_false_leb x y :
  is_nan x = false -> is_nan y = false -> (x <? y) = false -> (y <=? x) = true.
Proof.
  rewrite !is_nan_SFnan, ltb_spec, leb_SFle. unfold SFltb, SFle.
  intros Hx Hy. rewrite (SFcompare_swap (Prim2SF x) (Prim2SF y)).
  destruct (SFcompare (Prim2SF x) (Prim2SF y)) as [[]|] eqn:E; simpl;
    intros H; try discriminate; auto.
  apply SFcompare_nan in E. destruct E; congruence.
Qed.

Lemma ge_length_index x i n :
  index_of x = Some i -> ge_length x n = (n <=? i)%nat.
Proof.
  unfold index_of, ge_length.
  destruct (Prim2SF x) as [ s | s | | [] m e ]; try discriminate.
  - intros H; injection H as <-. destruct n; reflexivity.
  - destruct (Z.leb_spec 0 e) as [He | He].
    + intros H.
      assert (E : i = Z.to_nat (Z.pos m * 2 ^ e)) by congruence.
      subst i. clear H.
      assert (0 <= Z.pos m * 2 ^ e)%Z
        by (apply Z.mul_nonneg_nonneg; [ lia | apply Z.pow_nonneg; lia ]).
      generalize dependent (Z.pos m * 2 ^ e)%Z. intros v Hv.
      destruct (Z.leb_spec (Z.of_nat n) v);
        destruct (Nat.leb_spec n (Z.to_nat v));
        try reflexivity; lia.
    + destruct (Z.eqb_spec (Z.pos m mod 2 ^ (- e)) 0) as [Hm | Hm];
        [ | discriminate ].
      intros H.
      assert (E : i = Z.to_nat (Z.pos m / 2 ^ (- e))) by congruence.
      subst i. clear H.
      assert (Hp : (0 < 2 ^ (- e))%Z) by (apply Z.pow_pos_nonneg; lia).
      pose proof (Z.div_mod (Z.pos m) (2 ^ (- e)) ltac:(lia)) as D.
      rewrite Hm, Z.add_0_r in D.
      assert (Hq : (0 <= Z.pos m / 2 ^ (- e))%Z) by (apply Z.div_pos; lia).
      rewrite D at 1.
      generalize dependent (Z.pos m / 2 ^ (- e))%Z. intros q D Hq.
      generalize dependent (2 ^ (- e))%Z. intros p Hm Hp D.
      destruct (Z.leb_spec (Z.of_nat n * p) (p * q)) as [L | L];
        destruct (Nat.leb_spec n (Z.to_nat q)) as [M | M];
        try reflexivity; exfalso.
      * assert (q + 1 <= Z.of_nat n)%Z by lia. nia.
      * assert (Z.of_nat n <= q)%Z by lia. nia.
Qed.

(** A number that is an index and is not [>= a.length] reads a defined
    element of [a]. *)
Lemma index_in_range {A : Type} (a : list A) x i :
  index_of x = Some i -> ge_length x (List.length a) = false ->
  exists v, nth_error a i = Some v.
Proof.
  intros Hi Hg. rewrite (ge_length_index _ _ _ Hi) in Hg.
  apply Nat.leb_gt in Hg.
  destruct (nth_error a i) as [v | ] eqn:E.
  - exists v. reflexivity.
  - apply nth_error_None in E. lia.
Qed.

Lemma zeros_leb x y :
  is_pos_zero x = true -> is_neg_zero y = true ->
  (y <=? x) = true /\ (x <=? y) = true.
Proof.
  unfold is_pos_zero, is_neg_zero. rewrite !leb_spec.
  destruct (Prim2SF x) as [ [] | | | ]; try discriminate.
  destruct (Prim2SF y) as [ [] | | | ]; try discriminate.
  split; reflexivity.
Qed.

Lemma max_from_spec l : forall h,
  is_nan h = false -> no_nan l ->
  let r := max_from h l in
  In r (h :: l) /\ (h <=? r) = true /\ Forall (fun x => (x <=? r) = true) l.
Proof.
  induction l as [ | x l IH]; intros h Hh Hl; simpl.
  - repeat split; auto using leb_refl.
  - inversion Hl as [ | ? ? Hx Hl']; subst. rewrite Hx.
    destruct (is_pos_zero x && is_neg_zero h) eqn:Z.
    + apply andb_true_iff in Z. destruct Z as [Zx Zh].
      destruct (zeros_leb _ _ Zx Zh) as [L1 L2].
      destruct (IH x Hx Hl') as (I & L & F).
      split; [ | split ].
      * destruct I as [I | I]; [ right; left; exact I | right; right; exact I ].
      * exact (leb_trans _ _ _ L1 L).
      * constructor; assumption.
    + destruct (h <? x) eqn:C.
      * destruct (IH x Hx Hl') as (I & L & F).
        split; [ | split ].
        -- destruct I as [I | I]; [ right; left; exact I | right; right; exact I ].
        -- exact (leb_trans _ _ _ (ltb_leb _ _ C) L).
        -- constructor; assumption.
      * destruct (IH h Hh Hl') as (I & L & F).
        split; [ | split ].
        -- destruct I as [I | I]; [ left; exact I | right; right; exact I ].
        -- exact L.
        -- constructor; [ | assumption ].
           exact (leb_trans _ _ _ (ltb_false_leb _ _ Hh Hx C) L).
Qed.

Lemma min_from_spec l : forall h,
  is_nan h = false -> no_nan l ->
  let r := min_from h l in
  In r (h :: l) /\ (r <=? h) = true /\ Forall (fun x => (r <=? x) = true) l.
Proof.
  induction l as [ | x l IH]; intros h Hh Hl; simpl.
  - repeat split; auto using leb_refl.
  - inversion Hl as [ | ? ? Hx Hl']; subst. rewrite Hx.
    destruct (is_neg_zero x && is_pos_zero h) eqn:Z.
    + apply andb_true_iff in Z. destruct Z as [Zx Zh].
      destruct (zeros_leb _ _ Zh Zx) as [L1 L2].
      destruct (IH x Hx Hl') as (I & L & F).
      split; [ | split ].
      * destruct I as [I | I]; [ right; left; exact I | right; right; exact I ].
      * exact (leb_trans _ _ _ L L1).
      * constructor; assumption.
    + destruct (x <? h) eqn:C.
      * destruct (IH x Hx Hl') as (I & L & F).
        split; [ | split ].
        -- destruct I as [I | I]; [ right; left; exact I | right; right; exact I ].
        -- exact (leb_trans _ _ _ L (ltb_leb _ _ C)).
        -- constructor; assumption.
      * destruct (IH h Hh Hl') as (I & L & F).
        split; [ | split ].
        -- destruct I as [I | I]; [ left; exact I | right; right; exact I ].
        -- exact L.
        -- constructor; [ | assumption ].
           exact (leb_trans _ _ _ L (ltb_false_leb _ _ Hx Hh C)).
Qed.

Lemma is_nan_true x : is_nan x = true -> x = nan.
Proof.
  rewrite is_nan_SFnan. intros H. apply Prim2SF_inj.
  destruct (Prim2SF x); try discriminate. reflexivity.
Qed.

Lemma leb_neg_infinity x : (x <=? neg_infinity) = true -> x = neg_infinity.
Proof.
  rewrite leb_spec. intros H. apply Prim2SF_inj.
  change (Prim2SF neg_infinity) with (S754_infinity true) in *.
  destruct (Prim2SF x) as [ [] | [] | | [] ? ? ]; try discriminate; reflexivity.
Qed.

Lemma infinity_leb x : (infinity <=? x) = true -> x = infinity.
Proof.
  rewrite leb_spec. intros H. apply Prim2SF_inj.
  change (Prim2SF infinity) with (S754_infinity false) in *.
  destruct (Prim2SF x) as [ [] | [] | | [] ? ? ]; try discriminate; reflexivity.
Qed.

(** On a non-empty list without NaN, [Math.max] returns an element of
    the list that no element exceeds. *)
Lemma Math_max_spec l :
  l <> [] -> no_nan l ->
  In (Math_max l) l /\ Forall (fun x => (x <=? Math_max l) = true) l.
Proof.
  intros Hne Hl.
  destruct (max_from_spec l neg_infinity eq_refl Hl) as (I & _ & F).
  fold (Math_max l) in I, F. split; [ | exact F ].
  destruct I as [I | I]; [ | exact I ].
  destruct l as [ | x l]; [ congruence | ].
  inversion F as [ | ? ? Fx _]; subst.
  rewrite <- I in Fx. apply leb_neg_infinity in Fx.
  left. congruence.
Qed.

Lemma Math_min_spec l :
  l <> [] -> no_nan l ->
  In (Math_min l) l /\ Forall (fun x => (Math_min l <=? x) = true) l.
Proof.
  intros Hne Hl.
  destruct (min_from_spec l infinity eq_refl Hl) as (I & _ & F).
  fold (Math_min l) in I, F. split; [ | exact F ].
  destruct I as [I | I]; [ | exact I ].
  destruct l as [ | x l]; [ congruence | ].
  inversion F as [ | ? ? Fx _]; subst.
  rewrite <- I in Fx. apply infinity_leb in Fx.
  left. congruence.
Qed.

Lemma Math_max_single x : Math_max [x] = x.
Proof.
  unfold Math_max; simpl.
  destruct (is_nan x) eqn:N.
  - symmetry. apply is_nan_true, N.
  - change (is_neg_zero neg_infinity) with false. rewrite andb_false_r.
    destruct (neg_infinity <? x) eqn:C; [ reflexivity | ].
    symmetry. apply leb_neg_infinity.
    apply ltb_false_leb; auto.
Qed.

Lemma Math_min_single x : Math_min [x] = x.
Proof.
  unfold Math_min; simpl.
  destruct (is_nan x) eqn:N.
  - symmetry. apply is_nan_true, N.
  - change (is_pos_zero infinity) with false. rewrite andb_false_r.
    destruct (x <? infinity) eqn:C; [ reflexivity | ].
    symmetry. apply infinity_leb.
    apply ltb_false_leb; auto.
Qed.

(** *** The definitions on sample numbers *)

(** What a number indexes: 3 is element 3 and [-0] element 0; 2.5, -1,
    NaN and the infinities index nothing. *)
Example index_of_samples :
  index_of 3 = Some 3%nat /\ index_of (-0) = Some 0%nat
  /\ index_of 2.5 = None /\ index_of (-1) = None
  /\ index_of nan = None /\ index_of infinity = None.
Proof. repeat split. Qed.

(** [ge_length x n] is the comparison [x >= n] of binary64, the length
    read as a number. *)
Example ge_length_samples :
  Forall (fun '(x, n) => ge_length x n = (of_nat n <=? x))
    [(3, 3%nat); (2.5, 3%nat); (3.5, 3%nat); (-0.5, 0%nat); (-0, 0%nat);
     (0, 1%nat); (nan, 0%nat); (infinity, 7%nat); (neg_infinity, 0%nat);
     (4294967295, 4%nat); (1e22, 120%nat); (0.25, 1%nat)].
Proof. repeat constructor. Qed.

(** [Math.max] and [Math.min] on the two zeros, on no argument and on
    a NaN. *)
Example Math_max_samples :
  Math_max [-0; 0] = 0 /\ Math_max [0; -0] = 0 /\ Math_min [0; -0] = -0
  /\ Math_max [] = neg_infinity /\ Math_min [] = infinity
  /\ Math_max [1; nan; 2] = nan /\ Math_max [1; 3; 2] = 3.
Proof. repeat split. Qed.

End JSNumFacts.

(* ================================================================= *)
(** ** Aggregation and classification of bars *)

Module ChartRendererFacts.

Import JSNum JSNumFacts ChartRenderer.
Local Open Scope float_scope.

(** *** Notions of the specification *)

(** The aggregation factor of a supported frequency. *)
Definition factor (freq : string) : option nat :=
  if (freq =? "5min")%string then Some 1%nat
  else if (freq =? "10min")%string then Some 2%nat
  else if (freq =? "15min")%string then Some 3%nat
  else None.

(** [chunks] cuts [bars] into consecutive chunks of [k] bars, the last
    one of 1 to [k] bars. *)
Definition Chunked (k : nat) (bars : list Bar) (chunks : list (list Bar)) : Prop :=
  List.concat chunks = bars
  /\ (forall c, In c chunks -> (1 <= List.length c <= k)%nat)
  /\ (forall pre c post, chunks = pre ++ c :: post -> post <> [] ->
        List.length c = k).

(** [m] is what [Math.max] gives on [l], which is the greatest element
    of [l] when no element is NaN. *)
Definition maximum (m : float) (l : list float) : Prop :=
  m = Math_max l
  /\ (no_nan l -> In m l /\ Forall (fun x => (x <=? m) = true) l).

Definition minimum (m : float) (l : list float) : Prop :=
  m = Math_min l
  /\ (no_nan l -> In m l /\ Forall (fun x => (m <=? x) = true) l).

(** [b] is the bar emitted for [chunk]. *)
Definition Rollup (chunk : list Bar) (b : Bar) : Prop :=
  exists first final,
    hd_error chunk = Some first
    /\ nth_error chunk (List.length chunk - 1) = Some final
    /\ timestamp b = timestamp first
    /\ open b = open first
    /\ maximum (high b) (map high chunk)
    /\ minimum (low b) (map low chunk)
    /\ close b = close final.

(** *** The loop as a map over chunks *)

Fixpoint chunksOf (fuel k : nat) (l : list Bar) : list (list Bar) :=
  match fuel with
  | O => []
  | S fuel' =>
      match l with
      | [] => []
      | _ :: _ => firstn k l :: chunksOf fuel' k (skipn k l)
      end
  end.

Definition rollup (chunk : list Bar) : list Bar :=
  match chunk with
  | [] => []
  | first :: _ => [aggregated first chunk]
  end.

Lemma skipn_nil_iff (l : list Bar) i :
  (i <? List.length l)%nat = false <-> skipn i l = [].
Proof.
  rewrite Nat.ltb_ge. apply skipn_all_iff.
Qed.

Lemma aggregateLoop_chunks bars k : (1 <= k)%nat ->
  forall fuel i result,
    aggregateLoop fuel bars k i result
    = result ++ flat_map rollup (chunksOf fuel k (skipn i bars)).
Proof.
  intros Hk. induction fuel as [ | fuel IH]; intros i result; simpl.
  - symmetry. apply app_nil_r.
  - destruct (i <? List.length bars)%nat eqn:E.
    + unfold slice. replace (i + k - i)%nat with k by lia.
      assert (N : skipn i bars <> []).
      { intros C. apply skipn_nil_iff in C. congruence. }
      destruct (skipn i bars) as [ | b rest] eqn:Hsk; [ congruence | ].
      destruct k as [ | k']; [ lia | ].
      cbn [firstn]. rewrite IH.
      replace (skipn (i + S k') bars) with (skipn (S k') (b :: rest))
        by (rewrite <- Hsk, skipn_skipn; f_equal; lia).
      cbn [flat_map rollup]. rewrite <- app_assoc. reflexivity.
    + apply skipn_nil_iff in E. rewrite E. simpl.
      symmetry. apply app_nil_r.
Qed.

Lemma nth_error_last (l : list Bar) d : l <> [] ->
  nth_error l (List.length l - 1) = Some (last l d).
Proof.
  induction l as [ | x l IH]; [ congruence | ]. intros _.
  destruct l as [ | y l]; [ reflexivity | ].
  replace (List.length (x :: y :: l) - 1)%nat
    with (S (List.length (y :: l) - 1)) by (simpl; lia).
  cbn [nth_error]. rewrite IH by discriminate. reflexivity.
Qed.

Lemma rollup_Rollup chunk : chunk <> [] ->
  exists b, rollup chunk = [b] /\ Rollup chunk b.
Proof.
  destruct chunk as [ | first rest]; [ congruence | ]. intros _.
  exists (aggregated first (first :: rest)). split; [ reflexivity | ].
  exists first, (last (first :: rest) first).
  assert (M : map high (first :: rest) <> []) by discriminate.
  assert (M' : map low (first :: rest) <> []) by discriminate.
  repeat split; try reflexivity.
  - apply nth_error_last. discriminate.
  - apply (Math_max_spec _ M); assumption.
  - apply (Math_max_spec _ M); assumption.
  - apply (Math_min_spec _ M'); assumption.
  - apply (Math_min_spec _ M'); assumption.
Qed.

(** With fuel for every bar, the chunks cover the input. *)
Lemma chunksOf_Chunked k : (1 <= k)%nat ->
  forall fuel l, (List.length l <= fuel)%nat ->
    Chunked k l (chunksOf fuel k l)
    /\ List.length (chunksOf fuel k l) = ((List.length l + k - 1) / k)%nat.
Proof.
  intros Hk. induction fuel as [ | fuel IH]; intros l Hl.
  - destruct l; [ | simpl in Hl; lia ]. simpl.
    split; [ split; [ reflexivity | split ] | ].
    + intros c [].
    + intros pre c post E. destruct pre; discriminate.
    + symmetry. apply Nat.div_small. lia.
  - destruct l as [ | b rest].
    + simpl. split; [ split; [ reflexivity | split ] | ].
      * intros c [].
      * intros pre c post E. destruct pre; discriminate.
      * symmetry. apply Nat.div_small. lia.
    + remember (b :: rest) as l eqn:El.
      assert (Ll : List.length l = S (List.length rest)) by (subst l; reflexivity).
      assert (Hs : (List.length (skipn k l) <= fuel)%nat).
      { rewrite length_skipn. lia. }
      destruct (IH _ Hs) as ((C1 & C2 & C3) & C4).
      assert (Ec : chunksOf (S fuel) k l
                   = firstn k l :: chunksOf fuel k (skipn k l))
        by (subst l; reflexivity).
      rewrite Ec. clear Ec.
      split; [ split; [ | split ] | ].
      * simpl. rewrite C1. apply firstn_skipn.
      * intros c [<- | Hc]; [ | auto ].
        rewrite length_firstn. lia.
      * intros pre c post E Hp. destruct pre as [ | c0 pre].
        -- simpl in E. injection E as E1 E2. subst c.
           rewrite length_firstn. apply Nat.min_l.
           destruct (Nat.le_gt_cases k (List.length l)) as [ | G]; [ assumption | ].
           exfalso. rewrite skipn_all2 in E2 by lia.
           destruct fuel; simpl in E2; subst post; congruence.
        -- simpl in E. injection E as _ E2. exact (C3 _ _ _ E2 Hp).
      * simpl. rewrite C4, length_skipn.
        destruct (Nat.le_gt_cases k (List.length l)) as [L | G].
        -- replace (List.length l + k - 1)%nat
             with ((List.length l - k + k - 1) + 1 * k)%nat by lia.
           rewrite Nat.div_add by lia. lia.
        -- replace (List.length l - k + k - 1)%nat with (k - 1)%nat by lia.
           rewrite (Nat.div_small (k - 1) k) by lia.
           assert (List.length l + k - 1 = (List.length l - 1) + 1 * k)%nat as ->
             by lia.
           rewrite Nat.div_add by lia.
           rewrite (Nat.div_small (List.length l - 1) k) by lia. reflexivity.
Qed.

Lemma chunks_one fuel : forall l, (List.length l <= fuel)%nat ->
  flat_map rollup (chunksOf fuel 1 l) = l.
Proof.
  induction fuel as [ | fuel IH]; intros l Hl.
  - destruct l; [ reflexivity | simpl in Hl; lia ].
  - destruct l as [ | b rest]; [ reflexivity | ].
    simpl in Hl. cbn [chunksOf firstn skipn flat_map rollup app].
    rewrite IH by lia. f_equal.
    unfold aggregated. cbn [map last].
    rewrite Math_max_single, Math_min_single. destruct b; reflexivity.
Qed.

Lemma flat_map_rollup chunks :
  (forall c, In c chunks -> c <> []) ->
  Forall2 Rollup chunks (flat_map rollup chunks).
Proof.
  induction chunks as [ | c chunks IH]; intros H; simpl.
  - constructor.
  - destruct (rollup_Rollup c (H c (or_introl eq_refl))) as (b & -> & R).
    simpl. constructor; [ exact R | ].
    apply IH. intros c' Hc'. apply H. right. exact Hc'.
Qed.

(** A supported frequency runs the loop with its factor, or returns at
    once for '5min', which is what the loop would compute with factor 1. *)
Lemma aggregateToFrequency_loop bars freq k : factor freq = Some k ->
  (1 <= k)%nat
  /\ aggregateToFrequency bars freq
     = flat_map rollup (chunksOf (List.length bars) k bars).
Proof.
  unfold factor, aggregateToFrequency.
  destruct (freq =? "5min")%string.
  - intros [= <-]. split; [ lia | ].
    symmetry. apply chunks_one. lia.
  - destruct (freq =? "10min")%string.
    + intros [= <-]. split; [ lia | ].
      change (10 / 5)%nat with 2%nat.
      rewrite aggregateLoop_chunks by lia. reflexivity.
    + destruct (freq =? "15min")%string; [ | discriminate ].
      intros [= <-]. split; [ lia | ].
      change (15 / 5)%nat with 3%nat.
      rewrite aggregateLoop_chunks by lia. reflexivity.
Qed.

End ChartRendererFacts.

(* ================================================================= *)
(** ** The filter engine *)

Module DataProcessorFacts.

Import JSNum ChartRenderer DataProcessor.

(** *** Notions of the specification *)

(** A dimension of the entry-level pass: an empty selection does not
    constrain, a non-empty one requires membership. *)
Definition admits (selected : list string) (value : string) : Prop :=
  selected = [] \/ In value selected.

(** [z] is a valid index into [a]. *)
Definition validIndex {A : Type} (z : Z) (a : list A) : Prop :=
  (0 <= z < Z.of_nat (List.length a))%Z.

(** The view [chartData] meets the constraint [bf]: [bar - 1] is a valid
    index into the direction sequence, the direction there is the
    requested one and, when a class other than the wildcard is
    requested, the body-ratio class there is the requested one. *)
Definition Satisfies (chartData : ChartData.t) (bf : BarFilter.t) : Prop :=
  let barIndex := (BarFilter.bar bf - 1)%Z in
  validIndex barIndex (ChartData.barDirections chartData)
  /\ nth_error (ChartData.barDirections chartData) (Z.to_nat barIndex)
     = Some (BarFilter.direction bf)
  /\ (forall r, BarFilter.bodyRatio bf = Some r -> r <> ""%string ->
        r <> "any"%string ->
        nth_error (ChartData.bodyRatios chartData) (Z.to_nat barIndex) = Some r).

(** The key of the view of [entry] at ([freq], [barsOpt]). *)
Definition viewKey (entry : Entry.t) (freq : string) (barsOpt : Z) : string :=
  (Entry.source entry ++ "-" ++ Entry.date entry ++ "-" ++ freq ++ "-"
   ++ string_of_Z barsOpt)%string.

(** The selections of a filter object, defaults applied. *)
Definition sourcesOf (f : Filters.t) := default [] (Filters.sources f).
Definition frequenciesOf (f : Filters.t) :=
  default ["5min"%string] (Filters.frequencies f).
Definition barsOptionsOf (f : Filters.t) := default [999%Z] (Filters.barsOptions f).
Definition gapDirectionsOf (f : Filters.t) := default [] (Filters.gapDirections f).
Definition gapSizeClassesOf (f : Filters.t) := default [] (Filters.gapSizeClasses f).
Definition prevDayFiltersOf (f : Filters.t) := default [] (Filters.prevDayFilters f).
Definition barFiltersOf (f : Filters.t) := default [] (Filters.barFilters f).

(** The entry-level pass of [getFilteredCharts filters]. *)
Definition entryLevel (f : Filters.t) (entry : Entry.t) : bool :=
  entryPasses (sourcesOf f) (gapDirectionsOf f) (gapSizeClassesOf f)
    (prevDayFiltersOf f) entry.

(** *** Sample inputs *)

(** A catalog of one day of six bars, whose second bar is UP with a
    body of half its range. *)
Definition sampleBars : list Bar :=
  [mkBar 0 10 12 9 11; mkBar 1 11 13 11 12; mkBar 2 12 12 10 11;
   mkBar 3 11 12 10 11; mkBar 4 11 14 11 13; mkBar 5 13 13 12 12].

Definition sampleEntry : Entry.t :=
  {| Entry.source := "ES"; Entry.timezone := "America/New_York";
     Entry.tradingHours := "09:30-16:00"; Entry.date := "20240102";
     Entry.gapDirection := "GAP UP"; Entry.gapSizeClass := "small";
     Entry.openAbovePrevHigh := Some true; Entry.closeBelowPrevLow := Some false;
     Entry.prevClose := 10; Entry.prevHigh := 10; Entry.prevLow := 8;
     Entry.bars := sampleBars;
     Entry.barDirections := calculateBarDirections sampleBars;
     Entry.bodyRatios := calculateBodyRatios sampleBars |}.

Definition sampleFilters : Filters.t :=
  {| Filters.sources := Some ["ES"%string];
     Filters.frequencies := None;
     Filters.barsOptions := None;
     Filters.gapDirections := Some [];
     Filters.gapSizeClasses := None;
     Filters.prevDayFilters := Some ["open_above_prev_high"%string];
     Filters.barFilters :=
       Some [ {| BarFilter.bar := 2; BarFilter.direction := "UP";
                 BarFilter.bodyRatio := Some "50-75%"%string |} ] |}.

(** *** The entry-level pass *)

Lemma includes_In a s : includes a s = true <-> In s a.
Proof.
  unfold includes. rewrite existsb_exists. split.
  - intros (x & Hx & E). apply String.eqb_eq in E. subst. exact Hx.
  - intros H. exists s. split; [ exact H | apply String.eqb_refl ].
Qed.

Lemma guard_admits a s :
  (0 <? List.length a)%nat && negb (includes a s) = false <-> admits a s.
Proof.
  unfold admits. destruct a as [ | x a].
  - simpl. split; auto.
  - change (0 <? List.length (x :: a))%nat with true. rewrite andb_true_l.
    rewrite negb_false_iff, includes_In.
    split; [ auto | intros [ H | H ]; [ discriminate | exact H ] ].
Qed.

Lemma not_true_false v : not_true v = false <-> v = Some true.
Proof.
  destruct v as [ [] | ]; simpl; split; intros H; congruence.
Qed.

Lemma matchesPrevDay_spec entry l :
  matchesPrevDay entry l = true <->
  (In "open_above_prev_high"%string l -> Entry.openAbovePrevHigh entry = Some true)
  /\ (In "close_below_prev_low"%string l -> Entry.closeBelowPrevLow entry = Some true).
Proof.
  induction l as [ | x l IH]; simpl.
  - split; [ intros _; split; intros [] | reflexivity ].
  - destruct (String.eqb_spec x "open_above_prev_high") as [E1 | E1];
      destruct (String.eqb_spec x "close_below_prev_low") as [E2 | E2];
      try (subst; discriminate); simpl.
    + destruct (not_true (Entry.openAbovePrevHigh entry)) eqn:N.
      * split; [ discriminate | ].
        intros [H _]. specialize (H (or_introl E1)).
        apply not_true_false in H. congruence.
      * apply not_true_false in N. rewrite IH.
        split; intros [H1 H2]; (split; [ auto | ]).
        -- intros [ C | C ]; [ congruence | auto ].
        -- auto.
    + destruct (not_true (Entry.closeBelowPrevLow entry)) eqn:N.
      * split; [ discriminate | ].
        intros [_ H]. specialize (H (or_introl E2)).
        apply not_true_false in H. congruence.
      * apply not_true_false in N. rewrite IH.
        split; intros [H1 H2]; (split; [ | auto ]).
        -- intros [ C | C ]; [ congruence | auto ].
        -- auto.
    + rewrite IH. split; intros [H1 H2]; split; auto.
      * intros [ C | C ]; [ congruence | auto ].
      * intros [ C | C ]; [ congruence | auto ].
Qed.

Lemma entryPasses_spec sources gapDirections gapSizeClasses prevDayFilters entry :
  entryPasses sources gapDirections gapSizeClasses prevDayFilters entry = true <->
  admits sources (Entry.source entry)
  /\ admits gapDirections (Entry.gapDirection entry)
  /\ admits gapSizeClasses (Entry.gapSizeClass entry)
  /\ (In "open_above_prev_high"%string prevDayFilters ->
        Entry.openAbovePrevHigh entry = Some true)
  /\ (In "close_below_prev_low"%string prevDayFilters ->
        Entry.closeBelowPrevLow entry = Some true).
Proof.
  unfold entryPasses.
  rewrite <- !guard_admits.
  destruct ((0 <? List.length sources)%nat
            && negb (includes sources (Entry.source entry)));
    [ split; [ discriminate | intros (? & _); discriminate ] | ].
  destruct ((0 <? List.length gapDirections)%nat
            && negb (includes gapDirections (Entry.gapDirection entry)));
    [ split; [ discriminate | intros (_ & ? & _); discriminate ] | ].
  destruct ((0 <? List.length gapSizeClasses)%nat
            && negb (includes gapSizeClasses (Entry.gapSizeClass entry)));
    [ split; [ discriminate | intros (_ & _ & ? & _); discriminate ] | ].
  destruct prevDayFilters as [ | x l].
  - simpl. split; [ intros _ | reflexivity ].
    repeat split; intros [].
  - change (0 <? List.length (x :: l))%nat with true. cbv iota.
    rewrite matchesPrevDay_spec. tauto.
Qed.

(** *** The per-bar pass *)

Lemma differs_false x s : differs x s = false <-> x = Some s.
Proof.
  destruct x as [y | ]; simpl.
  - rewrite negb_false_iff, String.eqb_eq. split; congruence.
  - split; discriminate.
Qed.

Lemma getZ_Some {A : Type} (a : list A) z v :
  getZ a z = Some v <->
  validIndex z a /\ nth_error a (Z.to_nat z) = Some v.
Proof.
  unfold getZ, validIndex. destruct (Z.ltb_spec z 0) as [N | N].
  - split; [ discriminate | lia ].
  - split.
    + intros H. split; [ | exact H ].
      assert (Z.to_nat z < List.length a)%nat
        by (apply nth_error_Some; congruence).
      lia.
    + tauto.
Qed.

Lemma requestedBodyRatio_Some bf r :
  requestedBodyRatio bf = Some r <->
  BarFilter.bodyRatio bf = Some r /\ r <> ""%string /\ r <> "any"%string.
Proof.
  unfold requestedBodyRatio. destruct (BarFilter.bodyRatio bf) as [q | ].
  - destruct (String.eqb_spec q "") as [E1 | E1];
      destruct (String.eqb_spec q "any") as [E2 | E2]; simpl;
      split; try discriminate; try (intros (H & ? & ?); congruence).
    intros [= <-]. auto.
  - split; [ discriminate | intros (? & _); discriminate ].
Qed.

Lemma matchesBarFilters_spec chartData barFilters :
  matchesBarFilters chartData barFilters = true <->
  (forall bf, In bf barFilters -> Satisfies chartData bf).
Proof.
  induction barFilters as [ | bf rest IH].
  - simpl. split; [ intros _ bf [] | reflexivity ].
  - assert (Step : matchesBarFilters chartData (bf :: rest) = true <->
                   Satisfies chartData bf
                   /\ matchesBarFilters chartData rest = true).
    { cbn [matchesBarFilters]. unfold Satisfies.
      set (barIndex := (BarFilter.bar bf - 1)%Z).
      set (dirs := ChartData.barDirections chartData).
      set (ratios := ChartData.bodyRatios chartData).
      cbv zeta.
      destruct (Z.leb_spec (Z.of_nat (List.length dirs)) barIndex) as [G | G].
      { split; [ discriminate | ]. unfold validIndex. intros ((? & _) & _). lia. }
      destruct (differs (getZ dirs barIndex) (BarFilter.direction bf)) eqn:D.
      { split; [ discriminate | ]. intros ((V & N & _) & _).
        assert (F : differs (getZ dirs barIndex) (BarFilter.direction bf) = false)
          by (apply differs_false, getZ_Some; auto).
        congruence. }
      apply differs_false, getZ_Some in D. destruct D as [V N].
      destruct (requestedBodyRatio bf) as [r | ] eqn:Q.
      - apply requestedBodyRatio_Some in Q. destruct Q as (Q1 & Q2 & Q3).
        destruct (Z.leb_spec (Z.of_nat (List.length ratios)) barIndex) as [G' | G'].
        { split; [ discriminate | ]. intros ((_ & _ & R) & _).
          specialize (R r Q1 Q2 Q3).
          assert (Z.to_nat barIndex < List.length ratios)%nat
            by (apply nth_error_Some; congruence).
          unfold validIndex in V. lia. }
        destruct (differs (getZ ratios barIndex) r) eqn:D'.
        { split; [ discriminate | ]. intros ((_ & _ & R) & _).
          specialize (R r Q1 Q2 Q3).
          assert (F : differs (getZ ratios barIndex) r = false).
          { apply differs_false, getZ_Some. split; [ | exact R ].
            unfold validIndex in *. lia. }
          congruence. }
        apply differs_false, getZ_Some in D'. destruct D' as [_ R].
        split; [ intros H | tauto ].
        split; [ | exact H ]. split; [ exact V | split; [ exact N | ] ].
        intros r' Q1'. congruence.
      - split; [ intros H | tauto ].
        split; [ | exact H ]. split; [ exact V | split; [ exact N | ] ].
        intros r' Q1' Q2' Q3'.
        assert (requestedBodyRatio bf = Some r')
          by (apply requestedBodyRatio_Some; auto).
        congruence. }
    rewrite Step, IH. split.
    + intros [S H] bf' [ <- | I ]; auto.
    + intros H. split; [ apply H; left; reflexivity | ].
      intros bf' I. apply H. right. exact I.
Qed.

(** *** The loops as concatenations *)

Definition pushed (o : option Chart.t) : list Chart.t :=
  match o with Some chart => [chart] | None => [] end.

Lemma barsOptionsLoop_eq pc barFilters entry freq barsOptions : forall results,
  barsOptionsLoop pc barFilters entry freq barsOptions results
  = results ++ flat_map (fun barsOpt =>
                 pushed (generateChart pc barFilters entry freq barsOpt))
               barsOptions.
Proof.
  induction barsOptions as [ | barsOpt rest IH]; intros results; simpl.
  - symmetry. apply app_nil_r.
  - rewrite IH.
    destruct (generateChart pc barFilters entry freq barsOpt); simpl.
    + rewrite <- app_assoc. reflexivity.
    + reflexivity.
Qed.

Lemma frequenciesLoop_eq pc barFilters entry frequencies barsOptions : forall results,
  frequenciesLoop pc barFilters entry frequencies barsOptions results
  = results ++ flat_map (fun freq =>
                 flat_map (fun barsOpt =>
                   pushed (generateChart pc barFilters entry freq barsOpt))
                 barsOptions)
               frequencies.
Proof.
  induction frequencies as [ | freq rest IH]; intros results; simpl.
  - symmetry. apply app_nil_r.
  - rewrite IH, barsOptionsLoop_eq, <- app_assoc. reflexivity.
Qed.

Lemma entriesLoop_eq pc sources frequencies barsOptions gapDirections
    gapSizeClasses prevDayFilters barFilters entries : forall results,
  entriesLoop pc sources frequencies barsOptions gapDirections gapSizeClasses
    prevDayFilters barFilters entries results
  = results ++ flat_map (fun entry =>
      if entryPasses sources gapDirections gapSizeClasses prevDayFilters entry
      then flat_map (fun freq =>
             flat_map (fun barsOpt =>
               pushed (generateChart pc barFilters entry freq barsOpt))
             barsOptions)
           frequencies
      else [])
    entries.
Proof.
  induction entries as [ | entry rest IH]; intros results; simpl.
  - symmetry. apply app_nil_r.
  - rewrite IH.
    destruct (entryPasses sources gapDirections gapSizeClasses prevDayFilters entry).
    + rewrite frequenciesLoop_eq, <- app_assoc. reflexivity.
    + reflexivity.
Qed.

(** A chart is in the result exactly when some entry that passes the
    entry-level guards, some requested frequency and some requested
    bars option generate it. *)
Lemma In_getFilteredCharts pc f chart :
  In chart (getFilteredCharts pc f) <->
  exists entry freq barsOpt,
    In entry pc /\ entryLevel f entry = true
    /\ In freq (frequenciesOf f) /\ In barsOpt (barsOptionsOf f)
    /\ generateChart pc (barFiltersOf f) entry freq barsOpt = Some chart.
Proof.
  unfold getFilteredCharts. rewrite entriesLoop_eq. simpl.
  rewrite in_flat_map. split.
  - intros (entry & He & H).
    destruct (entryPasses _ _ _ _ entry) eqn:P; [ | destruct H ].
    apply in_flat_map in H. destruct H as (freq & Hf & H).
    apply in_flat_map in H. destruct H as (barsOpt & Hb & H).
    exists entry, freq, barsOpt.
    destruct (generateChart _ _ entry freq barsOpt) as [c | ] eqn:G;
      [ | destruct H ].
    destruct H as [ <- | [] ]. repeat split; assumption.
  - intros (entry & freq & barsOpt & He & P & Hf & Hb & G).
    exists entry. split; [ exact He | ].
    unfold entryLevel, sourcesOf, gapDirectionsOf, gapSizeClassesOf,
      prevDayFiltersOf in P. rewrite P.
    apply in_flat_map. exists freq. split; [ exact Hf | ].
    apply in_flat_map. exists barsOpt. split; [ exact Hb | ].
    unfold barFiltersOf in G. rewrite G. left. reflexivity.
Qed.

(** What [generateChart] pushes. *)
Lemma generateChart_Some pc barFilters entry freq barsOpt chart :
  generateChart pc barFilters entry freq barsOpt = Some chart <->
  exists chartData,
    getTradingDayData pc (Entry.source entry) (Entry.date entry) freq barsOpt
    = Some chartData
    /\ (5 <= List.length (ChartData.bars chartData))%nat
    /\ (forall bf, In bf barFilters -> Satisfies chartData bf)
    /\ chart = {| Chart.data := chartData; Chart.key := viewKey entry freq barsOpt |}.
Proof.
  unfold generateChart.
  destruct (getTradingDayData pc _ _ freq barsOpt) as [cd | ].
  - destruct (Nat.ltb_spec (List.length (ChartData.bars cd)) 5) as [L | L].
    { split; [ discriminate | ]. intros (cd' & [= <-] & ? & _). lia. }
    destruct barFilters as [ | bf0 rest].
    + simpl. split.
      * intros [= <-]. exists cd.
        split; [ reflexivity | split; [ exact L | split; [ | reflexivity ] ] ].
        intros bf [].
      * intros (cd' & [= <-] & _ & _ & ->). reflexivity.
    + change (0 <? List.length (bf0 :: rest))%nat with true. rewrite andb_true_l.
      destruct (matchesBarFilters cd (bf0 :: rest)) eqn:M; simpl.
      * pose proof (proj1 (matchesBarFilters_spec _ _) M) as M'. split.
        -- intros [= <-]. exists cd.
           split; [ reflexivity | split; [ exact L | split; [ exact M' | reflexivity ] ] ].
        -- intros (cd' & [= <-] & _ & _ & ->). reflexivity.
      * split; [ discriminate | ]. intros (cd' & [= <-] & _ & S & _).
        pose proof (proj2 (matchesBarFilters_spec cd (bf0 :: rest)) S). congruence.
  - split; [ discriminate | intros (cd' & ? & _); discriminate ].
Qed.

(** The view of an entry of the catalog always exists, and its two
    sequences are derived from its (aggregated, truncated) bars. *)
Lemma getTradingDayData_total pc entry freq barsOpt :
  In entry pc ->
  exists chartData,
    getTradingDayData pc (Entry.source entry) (Entry.date entry) freq barsOpt
    = Some chartData.
Proof.
  intros I. unfold getTradingDayData.
  destruct (find _ pc) as [e | ] eqn:F.
  - eexists. reflexivity.
  - exfalso. apply (find_none _ _ F) in I. simpl in I.
    rewrite !String.eqb_refl in I. discriminate.
Qed.

Lemma getTradingDayData_derived pc sourceName date freq barsOpt chartData :
  getTradingDayData pc sourceName date freq barsOpt = Some chartData ->
  ChartData.barDirections chartData = map barDirection (ChartData.bars chartData)
  /\ ChartData.bodyRatios chartData = map bodyRatio (ChartData.bars chartData).
Proof.
  unfold getTradingDayData. destruct (find _ pc); [ | discriminate ].
  intros [= <-]. split; reflexivity.
Qed.

End DataProcessorFacts.

(* ================================================================= *)
(** ** The trade simulator *)

Module TradeSimulatorFacts.

Import JSNum JSNumFacts ChartRenderer DataProcessor TradeSimulator.
Local Open Scope float_scope.

(** *** Notions of the specification *)

(** [x] is a 1-based bar number: [x - 1] is an array index, which is to
    say that [x] is an integer and [x >= 1]. *)
Definition barNumber (x : float) : Prop :=
  exists i, index_of (x - 1) = Some i.

(** Valid trade parameters: accepted by [isValid], with a bar number as
    trigger bar. *)
Definition validParams (p : Params.t) : Prop :=
  isValid (Some p) = true /\ barNumber (Params.triggerBar p).

(** The target fires on a bar: Long, high >= target; Short, low <= target. *)
Definition targetFires (direction : string) (target : float) (bar : Bar) : bool :=
  if (direction =? "Long")%string then target <=? high bar
  else if (direction =? "Short")%string then low bar <=? target
  else false.

(** The stop fires on a bar: Long, low <= stop; Short, high >= stop. *)
Definition stopFires (direction : string) (stop : float) (bar : Bar) : bool :=
  if (direction =? "Long")%string then low bar <=? stop
  else if (direction =? "Short")%string then stop <=? high bar
  else false.

(** The results of a trade that passed the two degenerate cases, with
    the prices reported. *)
Definition resolved (outcome : Outcome) (pnl : float) (reason : option string)
    (entry target stop : float) : Result.t :=
  {| Result.outcome := outcome; Result.pnl := pnl; Result.reason := reason;
     Result.entry := Some entry; Result.target := Some target;
     Result.stop := Some stop |}.

Definition notEnoughBars : Result.t :=
  {| Result.outcome := SKIP; Result.pnl := 0;
     Result.reason := Some "not enough bars"%string;
     Result.entry := None; Result.target := None; Result.stop := None |}.

Definition zeroRange (entry : float) : Result.t :=
  {| Result.outcome := SKIP; Result.pnl := 0;
     Result.reason := Some "zero range"%string;
     Result.entry := Some entry; Result.target := None; Result.stop := None |}.

(** The prices of a trade triggered on the bar [tb]. *)
Definition rangeOf (tb : Bar) : float := high tb - low tb.
Definition targetOffsetOf (p : Params.t) (tb : Bar) : float :=
  Params.targetPct p / 100 * rangeOf tb.
Definition stopOffsetOf (p : Params.t) (tb : Bar) : float :=
  Params.stopPct p / 100 * rangeOf tb.
Definition targetPriceOf (p : Params.t) (tb : Bar) : float :=
  if (Params.direction p =? "Long")%string
  then close tb + targetOffsetOf p tb else close tb - targetOffsetOf p tb.
Definition stopPriceOf (p : Params.t) (tb : Bar) : float :=
  if (Params.direction p =? "Long")%string
  then close tb - stopOffsetOf p tb else close tb + stopOffsetOf p tb.

(** The scan of the bars after the trigger bar [tb]. *)
Definition scanAfter (p : Params.t) (tb : Bar) (subsequent : list Bar) : Result.t :=
  scan (Params.direction p) (close tb) (targetOffsetOf p tb) (stopOffsetOf p tb)
    (targetPriceOf p tb) (stopPriceOf p tb) subsequent.

(** Counting and summing trades. *)
Definition is_outcome (o : Outcome) (t : Trade.t) : bool :=
  match o, Result.outcome (Trade.result t) with
  | WIN, WIN | LOSS, LOSS | SKIP, SKIP => true
  | _, _ => false
  end.

Definition count (o : Outcome) (ts : list Trade.t) : nat :=
  List.length (filter (is_outcome o) ts).

Definition decisiveTrades (ts : list Trade.t) : list Trade.t :=
  filter (fun t => negb (is_outcome SKIP t)) ts.

(** The sum of the pnl of trades, added in order from [start]. *)
Definition sumPnL (start : float) (ts : list Trade.t) : float :=
  fold_left (fun s t => s + Result.pnl (Trade.result t)) ts start.

(** The trade recorded for a chart: the chart's key with the result of
    [simulateOne] on it. *)
Definition tradeOf (p : Params.t) (chart : Chart.t) (t : Trade.t) : Prop :=
  Trade.key t = Chart.key chart
  /\ simulateOne chart p = Return (Trade.result t).

(** [x] is an integer. *)
Definition isInteger (x : float) : bool :=
  match Prim2SF x with
  | S754_zero _ => true
  | S754_finite _ m e => (0 <=? e)%Z || (Z.pos m mod 2 ^ (- e) =? 0)%Z
  | _ => false
  end.

(** Validity in the words of the specification: triggerBar an integer
    >= 1, direction 'Long' or 'Short', targetPct and stopPct > 0. *)
Definition statedValid (p : Params.t) : bool :=
  isInteger (Params.triggerBar p) && (1 <=? Params.triggerBar p)
  && ((Params.direction p =? "Long")%string
      || (Params.direction p =? "Short")%string)
  && (0 <? Params.targetPct p) && (0 <? Params.stopPct p).

(** *** Sample inputs *)

(** A chart with the given bars and key, its sequences derived. *)
Definition chartOf (bars : list Bar) (key : string) : Chart.t :=
  {| Chart.data :=
       {| ChartData.source := "ES"; ChartData.timezone := "America/New_York";
          ChartData.tradingHours := "09:30-16:00"; ChartData.date := "20240102";
          ChartData.frequency := "5min"; ChartData.maxBars := 999;
          ChartData.gapDirection := "GAP UP"; ChartData.gapSizeClass := "small";
          ChartData.openAbovePrevHigh := Some false;
          ChartData.closeBelowPrevLow := Some false;
          ChartData.prevClose := 100; ChartData.prevHigh := 101;
          ChartData.prevLow := 99;
          ChartData.bars := bars;
          ChartData.barDirections := calculateBarDirections bars;
          ChartData.bodyRatios := calculateBodyRatios bars |};
     Chart.key := key |}.

Definition long (triggerBar targetPct stopPct : float) : Params.t :=
  {| Params.triggerBar := triggerBar; Params.direction := "Long";
     Params.targetPct := targetPct; Params.stopPct := stopPct |}.

(** Three one-trade days: two reach the target of 5, one the stop of 3. *)
Definition winningDay : list Bar :=
  [mkBar 0 100 108 98 105; mkBar 1 105 111 104 106].
Definition losingDay : list Bar :=
  [mkBar 0 100 106 100 105; mkBar 1 105 106 101 106].

(** *** Validation *)

Lemma isValid_spec p :
  isValid (Some p) = true <->
  (0 <? Params.triggerBar p) = true
  /\ (Params.direction p = "Long"%string \/ Params.direction p = "Short"%string)
  /\ (0 <? Params.targetPct p) = true
  /\ (0 <? Params.stopPct p) = true.
Proof.
  unfold isValid. rewrite !andb_true_iff, orb_true_iff, !String.eqb_eq. tauto.
Qed.

Lemma hitTarget_fires d t b :
  d = "Long"%string \/ d = "Short"%string -> hitTarget d t b = targetFires d t b.
Proof.
  unfold hitTarget, targetFires. intros [ -> | -> ]; reflexivity.
Qed.

Lemma hitStop_fires d s b :
  d = "Long"%string \/ d = "Short"%string -> hitStop d s b = stopFires d s b.
Proof.
  unfold hitStop, stopFires. intros [ -> | -> ]; reflexivity.
Qed.

(** *** The scan *)

Section Scan.

Variables (direction : string) (entry targetOffset stopOffset : float).
Variables (targetPrice stopPrice : float).

Let hits (b : Bar) : bool :=
  hitTarget direction targetPrice b || hitStop direction stopPrice b.

Let run := scan direction entry targetOffset stopOffset targetPrice stopPrice.

Lemma scan_quiet pre rest :
  (forall x, In x pre -> hits x = false) -> run (pre ++ rest) = run rest.
Proof.
  induction pre as [ | x pre IH]; intros H; [ reflexivity | ].
  assert (Hx : hits x = false) by (apply H; left; reflexivity).
  apply orb_false_iff in Hx. destruct Hx as [Ht Hs].
  simpl. unfold run in *. simpl. rewrite Ht, Hs. simpl.
  apply IH. intros y Hy. apply H. right. exact Hy.
Qed.

Lemma scan_end : 
  run [] = resolved SKIP 0 (Some "end of day"%string) entry targetPrice stopPrice.
Proof. reflexivity. Qed.

Lemma scan_hit b rest :
  hits b = true ->
  run (b :: rest)
  = if hitTarget direction targetPrice b && hitStop direction stopPrice b
    then resolved SKIP 0 (Some "both hit"%string) entry targetPrice stopPrice
    else if hitTarget direction targetPrice b
    then resolved WIN targetOffset None entry targetPrice stopPrice
    else resolved LOSS (- stopOffset) None entry targetPrice stopPrice.
Proof.
  unfold hits, run. simpl.
  destruct (hitTarget direction targetPrice b);
    destruct (hitStop direction stopPrice b); simpl;
    intros H; try discriminate; reflexivity.
Qed.

Lemma scan_skip_pnl l :
  Result.outcome (run l) = SKIP -> Result.pnl (run l) = 0.
Proof.
  unfold run. induction l as [ | b l IH]; simpl; [ reflexivity | ].
  destruct (hitTarget direction targetPrice b);
    destruct (hitStop direction stopPrice b); simpl;
    try discriminate; auto.
Qed.

End Scan.

(** *** One view *)

Lemma simulateOne_short chart p :
  ge_length (Params.triggerBar p - 1) (List.length (Chart.bars chart)) = true ->
  simulateOne chart p = Return notEnoughBars.
Proof.
  intros H. unfold simulateOne. rewrite H. reflexivity.
Qed.

Lemma simulateOne_triggered chart p i tb :
  index_of (Params.triggerBar p - 1) = Some i ->
  nth_error (Chart.bars chart) i = Some tb ->
  simulateOne chart p
  = if rangeOf tb <=? 0 then Return (zeroRange (close tb))
    else Return (scanAfter p tb (skipn (S i) (Chart.bars chart))).
Proof.
  intros Hi Hn. unfold simulateOne.
  rewrite (ge_length_index _ _ _ Hi).
  assert (L : (i < List.length (Chart.bars chart))%nat)
    by (apply nth_error_Some; congruence).
  apply Nat.leb_gt in L. rewrite L, Hi, Hn.
  fold (rangeOf tb). destruct (rangeOf tb <=? 0); reflexivity.
Qed.

(** With a bar number as trigger bar, [simulateOne] returns. *)
Lemma simulateOne_returns chart p :
  barNumber (Params.triggerBar p) -> exists r, simulateOne chart p = Return r.
Proof.
  intros [i Hi].
  destruct (ge_length (Params.triggerBar p - 1) (List.length (Chart.bars chart)))
    eqn:G.
  - eexists. apply simulateOne_short, G.
  - destruct (index_in_range _ _ _ Hi G) as [tb Hn].
    rewrite (simulateOne_triggered _ _ _ _ Hi Hn).
    destruct (rangeOf tb <=? 0); eexists; reflexivity.
Qed.

(** A skipped trade has pnl 0. *)
Lemma simulateOne_skip_pnl chart p r :
  simulateOne chart p = Return r -> Result.outcome r = SKIP -> Result.pnl r = 0.
Proof.
  unfold simulateOne.
  destruct (ge_length _ _); [ intros [= <-]; reflexivity | ].
  destruct (index_of _) as [i | ]; [ | discriminate ].
  destruct (nth_error _ i) as [tb | ]; [ | discriminate ].
  destruct (_ <=? 0); [ intros [= <-]; reflexivity | ].
  intros [= <-]. apply scan_skip_pnl.
Qed.

(** *** All views *)

Lemma count_cons o t ts :
  count o (t :: ts) = ((if is_outcome o t then 1 else 0) + count o ts)%nat.
Proof. unfold count. simpl. destruct (is_outcome o t); reflexivity. Qed.

Lemma simulateLoop_spec p charts :
  (forall chart, In chart charts -> exists r, simulateOne chart p = Return r) ->
  forall t, exists new,
    Forall2 (tradeOf p) charts new
    /\ simulateLoop p charts t
       = Return {| trades := trades t ++ new;
                   wins := wins t + count WIN new;
                   losses := losses t + count LOSS new;
                   skipped := skipped t + count SKIP new;
                   totalPnL := sumPnL (totalPnL t) (decisiveTrades new) |}.
Proof.
  induction charts as [ | chart rest IH]; intros H t.
  - exists []. split; [ constructor | ]. simpl.
    unfold count. simpl. rewrite app_nil_r, !Nat.add_0_r.
    destruct t; reflexivity.
  - destruct (H chart (or_introl eq_refl)) as [r Hr].
    destruct (IH (fun c Hc => H c (or_intror Hc)) (record chart r t))
      as (new & F & E).
    exists ({| Trade.key := Chart.key chart; Trade.result := r |} :: new).
    split.
    + constructor; [ split; [ reflexivity | exact Hr ] | exact F ].
    + simpl. rewrite Hr, E. rewrite !count_cons. unfold record, decisiveTrades.
      unfold is_outcome at 1 2 3 4. simpl.
      destruct (Result.outcome r); simpl; rewrite <- app_assoc; simpl;
        f_equal; f_equal; lia.
Qed.

(** With valid parameters [simulate] returns statistics, whose parts
    are as follows. *)
Lemma simulate_valid charts p :
  validParams p ->
  exists ts,
    Forall2 (tradeOf p) charts ts
    /\ simulate charts (Some p)
       = Return (Some
           {| Stats.wins := count WIN ts;
              Stats.losses := count LOSS ts;
              Stats.skipped := count SKIP ts;
              Stats.decisive := count WIN ts + count LOSS ts;
              Stats.winRate :=
                if (0 <? count WIN ts + count LOSS ts)%nat
                then of_nat (count WIN ts)
                     / of_nat (count WIN ts + count LOSS ts) * 100
                else 0;
              Stats.avgPnL :=
                if (0 <? count WIN ts + count LOSS ts)%nat
                then sumPnL 0 (decisiveTrades ts)
                     / of_nat (count WIN ts + count LOSS ts)
                else 0;
              Stats.trades := ts |}).
Proof.
  intros [V B].
  destruct (simulateLoop_spec p charts
              (fun c _ => simulateOne_returns c p B)
              {| trades := []; wins := 0; losses := 0; skipped := 0; totalPnL := 0 |})
    as (ts & F & E).
  exists ts. split; [ exact F | ].
  unfold simulate. rewrite V. simpl negb. cbv iota. rewrite E. reflexivity.
Qed.

Lemma count_partition ts :
  (count WIN ts + count LOSS ts + count SKIP ts)%nat = List.length ts.
Proof.
  induction ts as [ | t ts IH]; [ reflexivity | ].
  rewrite !count_cons. unfold is_outcome. simpl.
  destruct (Result.outcome (Trade.result t)); lia.
Qed.

End TradeSimulatorFacts.

(* ================================================================= *)
(** ** Properties of the renderer: aggregation and body ratios *)

Module RendererProperties.

Import JSNum JSNumFacts ChartRenderer ChartRendererFacts.
Local Open Scope float_scope.

(** C5: for a supported frequency of factor [k] (1 for '5min', 2 for
    '10min', 3 for '15min'), [aggregateToFrequency] cuts the [N] input
    bars into consecutive chunks of [k] bars, the last one possibly
    shorter and kept, and emits one bar per chunk: timestamp and open
    of the chunk's first bar, the maximum of its highs, the minimum of
    its lows, the close of its last bar.  The output has ceil(N/k)
    bars, and with [k = 1] it is the input. *)
Theorem aggregateToFrequency_chunked (bars : list Bar) (freq : string) (k : nat) :
  factor freq = Some k ->
  let out := aggregateToFrequency bars freq in
  let N := List.length bars in
  (exists chunks, Chunked k bars chunks /\ Forall2 Rollup chunks out)
  /\ List.length out = ((N + k - 1) / k)%nat
  /\ (N <= k * List.length out < N + k)%nat
  /\ (k = 1%nat -> out = bars).
Proof.
  intros F. cbv zeta.
  destruct (aggregateToFrequency_loop bars freq k F) as [Hk E].
  rewrite E. clear E.
  destruct (chunksOf_Chunked k Hk (List.length bars) bars (Nat.le_refl _))
    as [C L].
  set (chunks := chunksOf (List.length bars) k bars) in *.
  assert (R : Forall2 Rollup chunks (flat_map rollup chunks)).
  { apply flat_map_rollup. intros c Hc.
    destruct C as (_ & C2 & _). specialize (C2 c Hc).
    destruct c; [ simpl in C2; lia | discriminate ]. }
  assert (Lout : List.length (flat_map rollup chunks)
                 = ((List.length bars + k - 1) / k)%nat).
  { rewrite <- L. symmetry. exact (Forall2_length R). }
  split; [ | split; [ exact Lout | split ] ].
  - exists chunks. split; [ exact C | exact R ].
  - rewrite Lout.
    pose proof (Nat.div_mod_eq (List.length bars + k - 1) k) as D.
    pose proof (Nat.mod_upper_bound (List.length bars + k - 1) k ltac:(lia)) as B.
    lia.
  - intros ->. apply chunks_one. lia.
Qed.

(** Five bars at '15min': two chunks, of three and of two bars. *)
Lemma aggregateToFrequency_chunked_witness :
  let bars := [mkBar 0 1 2 0 1; mkBar 1 1 3 1 2; mkBar 2 2 5 1 3;
               mkBar 3 3 4 2 2; mkBar 4 2 6 1 5] in
  factor "15min" = Some 3%nat
  /\ (exists chunks, Chunked 3 bars chunks
        /\ Forall2 Rollup chunks (aggregateToFrequency bars "15min"))
  /\ aggregateToFrequency bars "15min" = [mkBar 0 1 5 0 3; mkBar 3 3 6 1 5].
Proof.
  intros bars.
  split; [ reflexivity | split; [ | reflexivity ] ].
  exact (proj1 (aggregateToFrequency_chunked bars "15min" 3 eq_refl)).
Defined.

(** C8: [bodyRatio] (the classifier of [calculateBodyRatios]) gives
    '<25%' whenever range = high - low <= 0; otherwise, with
    ratio = |close - open| / range * 100, it gives '<25%' on [0,25),
    '25-50%' on [25,50), '50-75%' on [50,75) and '>75%' on [75,100];
    so ratio = 25 is '25-50%' and ratio = 75 is '>75%'. *)
Theorem bodyRatio_buckets (bar : Bar) :
  let range := high bar - low bar in
  let ratio := abs (close bar - open bar) / range * 100 in
  ((range <=? 0) = true -> bodyRatio bar = "<25%"%string)
  /\ ((range <=? 0) = false ->
      ((0 <=? ratio) = true -> (ratio <? 25) = true ->
         bodyRatio bar = "<25%"%string)
      /\ ((25 <=? ratio) = true -> (ratio <? 50) = true ->
         bodyRatio bar = "25-50%"%string)
      /\ ((50 <=? ratio) = true -> (ratio <? 75) = true ->
         bodyRatio bar = "50-75%"%string)
      /\ ((75 <=? ratio) = true -> (ratio <=? 100) = true ->
         bodyRatio bar = ">75%"%string)
      /\ (ratio = 25 -> bodyRatio bar = "25-50%"%string)
      /\ (ratio = 75 -> bodyRatio bar = ">75%"%string)).
Proof.
  intros range ratio. unfold bodyRatio. fold range. fold ratio.
  assert (below : forall a b, (a <? b) = true -> (b <=? ratio) = true ->
                              (ratio <? a) = false).
  { intros a b Hab Hb. apply leb_ltb_false.
    exact (ltb_leb _ _ (ltb_leb_trans _ _ _ Hab Hb)). }
  split.
  - intros ->. reflexivity.
  - intros ->. repeat split.
    + intros _ ->. reflexivity.
    + intros L ->. rewrite (leb_ltb_false _ _ L). reflexivity.
    + intros L ->. rewrite (leb_ltb_false _ _ L).
      rewrite (below 25 50 eq_refl L). reflexivity.
    + intros L _. rewrite (leb_ltb_false _ _ L).
      rewrite (below 25 75 eq_refl L), (below 50 75 eq_refl L). reflexivity.
    + intros ->. reflexivity.
    + intros ->. reflexivity.
Qed.

(** The boundaries on bars: ratio 25 (body 1, range 4), ratio 75
    (body 3, range 4), and a bar of range 0. *)
Example bodyRatio_boundaries :
  bodyRatio (mkBar 0 0 4 0 1) = "25-50%"%string
  /\ bodyRatio (mkBar 0 0 4 0 3) = ">75%"%string
  /\ bodyRatio (mkBar 0 1 2 2 2) = "<25%"%string.
Proof. repeat split. Qed.

End RendererProperties.

(* ================================================================= *)
(** ** Properties of the filter engine *)

Module FilterProperties.

Import JSNum ChartRenderer DataProcessor DataProcessorFacts.

(** C9: the entry-level pass of [getFilteredCharts] is a conjunction
    over the dimensions: sources, gapDirections and gapSizeClasses each
    admit an entry iff the selection is empty or contains the entry's
    value, and each requested previous-day flag requires the entry's
    boolean to be exactly [true]; a chart is in the result only through
    an entry that passes. *)
Theorem entry_level_conjunction (pc : list Entry.t) (f : Filters.t) :
  (forall entry,
     entryLevel f entry = true <->
     admits (sourcesOf f) (Entry.source entry)
     /\ admits (gapDirectionsOf f) (Entry.gapDirection entry)
     /\ admits (gapSizeClassesOf f) (Entry.gapSizeClass entry)
     /\ (In "open_above_prev_high"%string (prevDayFiltersOf f) ->
           Entry.openAbovePrevHigh entry = Some true)
     /\ (In "close_below_prev_low"%string (prevDayFiltersOf f) ->
           Entry.closeBelowPrevLow entry = Some true))
  /\ (forall chart,
        In chart (getFilteredCharts pc f) <->
        exists entry freq barsOpt,
          In entry pc /\ entryLevel f entry = true
          /\ In freq (frequenciesOf f) /\ In barsOpt (barsOptionsOf f)
          /\ generateChart pc (barFiltersOf f) entry freq barsOpt = Some chart).
Proof.
  split.
  - intros entry. apply entryPasses_spec.
  - intros chart. apply In_getFilteredCharts.
Qed.

(** C4: the view generated for an entry that passed the entry-level
    pass, at a requested frequency and bars option, is in the result of
    [getFilteredCharts] iff it has at least 5 bars and meets every
    requested bar constraint: [bar - 1] is a valid index into the
    derived direction sequence, the direction there is the requested
    one, and so is the body-ratio class when one is requested.  A
    constraint with an out-of-range bar number excludes the view. *)
Theorem view_surfaced (pc : list Entry.t) (f : Filters.t) (entry : Entry.t)
    (freq : string) (barsOpt : Z) (chartData : ChartData.t) :
  In entry pc ->
  entryLevel f entry = true ->
  In freq (frequenciesOf f) ->
  In barsOpt (barsOptionsOf f) ->
  getTradingDayData pc (Entry.source entry) (Entry.date entry) freq barsOpt
  = Some chartData ->
  let view := {| Chart.data := chartData; Chart.key := viewKey entry freq barsOpt |} in
  (In view (getFilteredCharts pc f) <->
     (5 <= List.length (ChartData.bars chartData))%nat
     /\ (forall bf, In bf (barFiltersOf f) -> Satisfies chartData bf))
  /\ ChartData.barDirections chartData = map barDirection (ChartData.bars chartData)
  /\ ChartData.bodyRatios chartData = map bodyRatio (ChartData.bars chartData)
  /\ (forall bf, In bf (barFiltersOf f) ->
        ~ validIndex (BarFilter.bar bf - 1) (ChartData.barDirections chartData) ->
        ~ In view (getFilteredCharts pc f)).
Proof.
  intros He Hp Hf Hb Hd view.
  assert (Iff : In view (getFilteredCharts pc f) <->
                (5 <= List.length (ChartData.bars chartData))%nat
                /\ (forall bf, In bf (barFiltersOf f) -> Satisfies chartData bf)).
  { split.
    - intros I. apply In_getFilteredCharts in I.
      destruct I as (entry' & freq' & barsOpt' & _ & _ & _ & _ & G).
      apply generateChart_Some in G.
      destruct G as (cd & _ & L & S & E).
      unfold view in E. injection E as E _. subst cd. split; assumption.
    - intros [L S]. apply In_getFilteredCharts.
      exists entry, freq, barsOpt. repeat split; try assumption.
      apply generateChart_Some. exists chartData.
      split; [ exact Hd | split; [ exact L | split; [ exact S | reflexivity ] ] ]. }
  destruct (getTradingDayData_derived _ _ _ _ _ _ Hd) as [D1 D2].
  split; [ exact Iff | split; [ exact D1 | split; [ exact D2 | ] ] ].
  intros bf Ibf V I. apply Iff in I. destruct I as [_ S].
  destruct (S bf Ibf) as [V' _]. exact (V V').
Qed.

Lemma view_surfaced_witness :
  exists chartData,
    getTradingDayData [sampleEntry] "ES" "20240102" "5min" 999 = Some chartData
    /\ In {| Chart.data := chartData; Chart.key := "ES-20240102-5min-999" |}
          (getFilteredCharts [sampleEntry] sampleFilters).
Proof.
  eexists. split; [ reflexivity | ].
  refine (proj2 (proj1 (view_surfaced [sampleEntry] sampleFilters sampleEntry
                          "5min" 999 _ _ _ _ _ eq_refl)) _).
  - left. reflexivity.
  - reflexivity.
  - left. reflexivity.
  - left. reflexivity.
  - split; [ simpl; lia | ].
    intros bf [ <- | [] ]. unfold Satisfies, validIndex. simpl.
    repeat split; try lia.
    intros r [= <-] _ _. reflexivity.
Defined.

(** A constraint on bar 7 of the six-bar view excludes it, whatever the
    direction asked for. *)
Example out_of_range_excludes :
  getFilteredCharts [sampleEntry]
    {| Filters.sources := None; Filters.frequencies := None;
       Filters.barsOptions := None; Filters.gapDirections := None;
       Filters.gapSizeClasses := None; Filters.prevDayFilters := None;
       Filters.barFilters :=
         Some [ {| BarFilter.bar := 7; BarFilter.direction := "UP";
                   BarFilter.bodyRatio := None |} ] |} = []
  /\ getFilteredCharts [sampleEntry]
       {| Filters.sources := None; Filters.frequencies := Some ["15min"%string];
          Filters.barsOptions := None; Filters.gapDirections := None;
          Filters.gapSizeClasses := None; Filters.prevDayFilters := None;
          Filters.barFilters := None |} = [].
Proof. split; reflexivity. Qed.

End FilterProperties.

(* ================================================================= *)
(** ** Properties of the trade simulator *)

Module SimulatorProperties.

Import JSNum JSNumFacts ChartRenderer DataProcessor TradeSimulator.
Import TradeSimulatorFacts.
Local Open Scope float_scope.

(** C1: with valid parameters, a trigger bar in the view and a range
    that is not [<= 0], [simulateOne] scans the bars after the trigger
    bar in order and resolves at the first bar where a level fires
    (Long: target iff high >= target, stop iff low <= stop; Short
    mirrored): SKIP 'both hit' with pnl 0 and the prices reported when
    both fire on it, WIN with pnl +targetOffset when only the target
    fires, LOSS with pnl -stopOffset when only the stop fires; and SKIP
    'end of day' with pnl 0 when no bar fires. *)
Theorem simulateOne_first_hit (chart : Chart.t) (p : Params.t) (i : nat) (tb : Bar) :
  validParams p ->
  index_of (Params.triggerBar p - 1) = Some i ->
  nth_error (Chart.bars chart) i = Some tb ->
  (rangeOf tb <=? 0) = false ->
  let direction := Params.direction p in
  let entry := close tb in
  let target := targetPriceOf p tb in
  let stop := stopPriceOf p tb in
  let quiet := fun x =>
    targetFires direction target x = false /\ stopFires direction stop x = false in
  let subsequent := skipn (S i) (Chart.bars chart) in
  (forall pre b post,
     subsequent = pre ++ b :: post ->
     (forall x, In x pre -> quiet x) ->
     (targetFires direction target b = true /\ stopFires direction stop b = true ->
        simulateOne chart p
        = Return (resolved SKIP 0 (Some "both hit"%string) entry target stop))
     /\ (targetFires direction target b = true /\ stopFires direction stop b = false ->
        simulateOne chart p
        = Return (resolved WIN (targetOffsetOf p tb) None entry target stop))
     /\ (targetFires direction target b = false /\ stopFires direction stop b = true ->
        simulateOne chart p
        = Return (resolved LOSS (- stopOffsetOf p tb) None entry target stop)))
  /\ ((forall x, In x subsequent -> quiet x) ->
      simulateOne chart p
      = Return (resolved SKIP 0 (Some "end of day"%string) entry target stop)).
Proof.
  intros [V _] Hi Hn Hr. cbv zeta.
  apply isValid_spec in V. destruct V as (_ & D & _).
  rewrite (simulateOne_triggered _ _ _ _ Hi Hn), Hr.
  unfold scanAfter.
  set (direction := Params.direction p) in *.
  set (target := targetPriceOf p tb). set (stop := stopPriceOf p tb).
  set (subsequent := skipn (S i) (Chart.bars chart)).
  assert (Q : forall l,
              (forall x, In x l -> targetFires direction target x = false
                                   /\ stopFires direction stop x = false) ->
              forall x, In x l ->
                hitTarget direction target x || hitStop direction stop x = false).
  { intros l H x Hx. destruct (H x Hx) as [H1 H2].
    rewrite (hitTarget_fires direction target x D).
    rewrite (hitStop_fires direction stop x D), H1, H2.
    reflexivity. }
  split.
  - intros pre b post -> Hpre.
    rewrite (scan_quiet _ _ _ _ _ _ pre (b :: post) (Q pre Hpre)).
    rewrite <- (hitTarget_fires direction target b D).
    rewrite <- (hitStop_fires direction stop b D).
    repeat split; intros [Ht Hs];
      (rewrite scan_hit by (rewrite Ht, Hs; reflexivity));
      rewrite Ht, Hs; reflexivity.
  - intros H.
    rewrite <- (app_nil_r subsequent).
    rewrite (scan_quiet _ _ _ _ _ _ subsequent [] (Q subsequent H)).
    reflexivity.
Qed.

(** A Long trade on bar 1 (close 105, range 10) with target 50% and
    stop 20%: the second bar is quiet, the third reaches the target. *)
Lemma simulateOne_first_hit_witness :
  simulateOne
    (chartOf [mkBar 0 100 108 98 105; mkBar 1 105 109 104 106;
              mkBar 2 106 111 105 110; mkBar 3 110 112 100 101] "k")
    (long 1 50 20)
  = Return (resolved WIN 5 None 105 110 103).
Proof.
  refine (proj1 (proj2 (proj1 (simulateOne_first_hit
    (chartOf [mkBar 0 100 108 98 105; mkBar 1 105 109 104 106;
              mkBar 2 106 111 105 110; mkBar 3 110 112 100 101] "k")
    (long 1 50 20) 0 (mkBar 0 100 108 98 105) _ eq_refl eq_refl eq_refl)
    [mkBar 1 105 109 104 106] (mkBar 2 106 111 105 110)
    [mkBar 3 110 112 100 101] eq_refl _)) _).
  - split; [ reflexivity | exists 0%nat; reflexivity ].
  - intros x [ <- | [] ]. split; reflexivity.
  - split; reflexivity.
Defined.

(** C2 as stated fails.  Stop 20% of a range of 10 below a close of
    105, and a next bar of high 111 and low 103: the stop price is 103,
    not 101, the next bar reaches it, and the result is not a WIN. *)
Lemma scenario_low_103_counterexample :
  let chart := chartOf [mkBar 0 100 108 98 105; mkBar 1 105 111 103 106] "k" in
  let p := long 1 50 20 in
  stopPriceOf p (mkBar 0 100 108 98 105) = 103
  /\ simulateOne chart p
     = Return (resolved SKIP 0 (Some "both hit"%string) 105 110 103)
  /\ (forall r, simulateOne chart p = Return r ->
        Result.outcome r = WIN /\ Result.pnl r = 5 -> False).
Proof.
  split; [ reflexivity | split; [ reflexivity | ] ].
  intros r [= <-] [H _]. discriminate.
Qed.

(** C2 (amended): for a Long trade whose trigger bar has close 105 and
    range 10, with targetPct = 50 and stopPct = 20, the target price is
    110 and the stop price is 103.  When the single bar after the
    trigger has high 111 and low 103 both levels fire and the result is
    SKIP 'both hit' with pnl 0; when its low is above 103 the result is
    WIN with pnl 5. *)
Theorem scenario_stop_at_103 (chart : Chart.t) (p : Params.t) (i : nat)
    (tb next : Bar) :
  Params.direction p = "Long"%string ->
  Params.targetPct p = 50 ->
  Params.stopPct p = 20 ->
  index_of (Params.triggerBar p - 1) = Some i ->
  nth_error (Chart.bars chart) i = Some tb ->
  skipn (S i) (Chart.bars chart) = [next] ->
  close tb = 105 ->
  rangeOf tb = 10 ->
  high next = 111 ->
  targetPriceOf p tb = 110
  /\ stopPriceOf p tb = 103
  /\ (low next = 103 ->
        simulateOne chart p
        = Return (resolved SKIP 0 (Some "both hit"%string) 105 110 103))
  /\ ((103 <? low next) = true ->
        simulateOne chart p = Return (resolved WIN 5 None 105 110 103)).
Proof.
  intros Hd Ht Hs Hi Hn Hk Hc Hr Hh.
  assert (To : targetOffsetOf p tb = 5)
    by (unfold targetOffsetOf; rewrite Ht, Hr; reflexivity).
  assert (So : stopOffsetOf p tb = 2)
    by (unfold stopOffsetOf; rewrite Hs, Hr; reflexivity).
  assert (Tp : targetPriceOf p tb = 110)
    by (unfold targetPriceOf; rewrite Hd, To, Hc; reflexivity).
  assert (Sp : stopPriceOf p tb = 103)
    by (unfold stopPriceOf; rewrite Hd, So, Hc; reflexivity).
  split; [ exact Tp | split; [ exact Sp | ] ].
  rewrite (simulateOne_triggered _ _ _ _ Hi Hn), Hr, Hk.
  change (10 <=? 0) with false. cbv iota.
  unfold scanAfter. rewrite Hd, To, So, Tp, Sp, Hc.
  cbn [scan]. unfold hitTarget, hitStop. rewrite Hh.
  change ("Long" =? "Long")%string with true. cbv iota.
  change (110 <=? 111) with true.
  split.
  - intros ->. reflexivity.
  - intros H. rewrite (ltb_leb_false _ _ H). reflexivity.
Qed.

Lemma scenario_stop_at_103_witness :
  simulateOne (chartOf [mkBar 0 100 108 98 105; mkBar 1 105 111 104 106] "k")
    (long 1 50 20)
  = Return (resolved WIN 5 None 105 110 103).
Proof.
  refine (proj2 (proj2 (proj2 (scenario_stop_at_103
    (chartOf [mkBar 0 100 108 98 105; mkBar 1 105 111 104 106] "k")
    (long 1 50 20) 0 (mkBar 0 100 108 98 105) (mkBar 1 105 111 104 106)
    eq_refl eq_refl eq_refl eq_refl eq_refl eq_refl eq_refl eq_refl eq_refl))) _).
  reflexivity.
Defined.

(** *** Validation *)

(** C3 as stated fails.  A trigger bar of 0.5 is neither an integer nor
    [>= 1], yet [simulate] takes the parameters: on no chart it returns
    statistics of zero trades, and on a chart with a bar it reads
    [bars[-0.5]]. *)
Lemma fractional_triggerBar_counterexample :
  let p := long 0.5 50 50 in
  statedValid p = false
  /\ isInteger (Params.triggerBar p) = false
  /\ (1 <=? Params.triggerBar p) = false
  /\ simulate [] (Some p)
     = Return (Some {| Stats.wins := 0; Stats.losses := 0; Stats.skipped := 0;
                       Stats.decisive := 0; Stats.winRate := 0; Stats.avgPnL := 0;
                       Stats.trades := [] |})
  /\ simulate [chartOf [mkBar 0 100 105 98 100] "k"] (Some p) = ThrowTypeError.
Proof. repeat split. Qed.

(** C3 (amended): [simulate] runs trades only when [isValid] accepts the
    parameters, that is when they are given, triggerBar > 0 (whether it
    is an integer is not checked), direction is exactly 'Long' or
    'Short', and targetPct and stopPct are both > 0; for all other
    parameters it returns [null], whatever the charts, and it returns
    [null] in no other case. *)
Theorem simulate_validates (charts : list Chart.t) (params : option Params.t) :
  (isValid params = false -> simulate charts params = Return None)
  /\ (isValid params = true -> simulate charts params <> Return None)
  /\ (isValid params = true <->
      exists p, params = Some p
        /\ (0 <? Params.triggerBar p) = true
        /\ (Params.direction p = "Long"%string
            \/ Params.direction p = "Short"%string)
        /\ (0 <? Params.targetPct p) = true
        /\ (0 <? Params.stopPct p) = true).
Proof.
  split; [ | split ].
  - intros H. unfold simulate. rewrite H. reflexivity.
  - intros H. unfold simulate. rewrite H. simpl.
    destruct params as [p | ]; [ | discriminate ].
    destruct (simulateLoop p charts _); discriminate.
  - destruct params as [p | ].
    + rewrite isValid_spec. split.
      * intros H. exists p. split; [ reflexivity | exact H ].
      * intros (q & [= <-] & H). exact H.
    + split; [ discriminate | intros (q & ? & _); discriminate ].
Qed.

(** *** Degenerate inputs *)

(** C7 as stated fails.  A trigger bar of 0.5 passes [isValid]; on a
    view of one bar the guard [triggerIndex >= bars.length] is false for
    -0.5, [bars[-0.5]] is [undefined], and reading its element 4
    raises. *)
Lemma fractional_index_counterexample :
  let p := long 0.5 50 50 in
  let chart := chartOf [mkBar 0 100 105 98 100] "k" in
  isValid (Some p) = true
  /\ ge_length (Params.triggerBar p - 1) (List.length (Chart.bars chart)) = false
  /\ index_of (Params.triggerBar p - 1) = None
  /\ simulateOne chart p = ThrowTypeError.
Proof. repeat split. Qed.

(** C7 (amended): for every view and every params whose triggerBar is a
    bar number (an integer >= 1, so that triggerBar - 1 is an array
    index), [simulateOne] never raises and resolves the degenerate
    inputs as SKIP outcomes: when triggerBar - 1 >= the number of bars
    of the view the result is SKIP 'not enough bars' with pnl 0, and
    otherwise the trigger bar exists and, when its range (high - low)
    is <= 0, the result is SKIP 'zero range' with pnl 0. *)
Theorem simulateOne_degenerate (chart : Chart.t) (p : Params.t) :
  barNumber (Params.triggerBar p) ->
  let triggerIndex := Params.triggerBar p - 1 in
  let bars := Chart.bars chart in
  (exists r, simulateOne chart p = Return r)
  /\ (ge_length triggerIndex (List.length bars) = true ->
      simulateOne chart p = Return notEnoughBars)
  /\ (ge_length triggerIndex (List.length bars) = false ->
      exists i tb,
        index_of triggerIndex = Some i /\ nth_error bars i = Some tb
        /\ ((high tb - low tb <=? 0) = true ->
            simulateOne chart p = Return (zeroRange (close tb))))
  /\ (Result.outcome notEnoughBars = SKIP /\ Result.pnl notEnoughBars = 0
      /\ Result.reason notEnoughBars = Some "not enough bars"%string)
  /\ (forall entry,
        Result.outcome (zeroRange entry) = SKIP /\ Result.pnl (zeroRange entry) = 0
        /\ Result.reason (zeroRange entry) = Some "zero range"%string).
Proof.
  intros B. cbv zeta.
  split; [ exact (simulateOne_returns chart p B) | ].
  split; [ apply simulateOne_short | ].
  split; [ | split; [ repeat split | intros entry; repeat split ] ].
  intros G. destruct B as [i Hi].
  destruct (index_in_range _ _ _ Hi G) as [tb Hn].
  exists i, tb. split; [ exact Hi | split; [ exact Hn | ] ].
  intros Hr. rewrite (simulateOne_triggered _ _ _ _ Hi Hn).
  unfold rangeOf. rewrite Hr. reflexivity.
Qed.

(** Trigger bar 2 of a view of one bar. *)
Lemma simulateOne_degenerate_witness :
  simulateOne (chartOf [mkBar 0 100 105 98 100] "k") (long 2 50 50)
  = Return notEnoughBars.
Proof.
  exact (proj1 (proj2 (simulateOne_degenerate
                         (chartOf [mkBar 0 100 105 98 100] "k") (long 2 50 50)
                         (ex_intro _ 1%nat eq_refl)))
           eq_refl).
Defined.

(** The two degenerate inputs, and a scan that finds nothing: trigger
    bar 2 of a view of one bar, a trigger bar whose high equals its
    low, and a view that ends with its trigger bar. *)
Example simulateOne_skips :
  simulateOne (chartOf [mkBar 0 100 105 98 100] "k") (long 2 50 50)
  = Return notEnoughBars
  /\ simulateOne (chartOf [mkBar 0 100 100 100 100; mkBar 1 100 101 99 100] "k")
       (long 1 50 50)
     = Return (zeroRange 100)
  /\ simulateOne (chartOf [mkBar 0 100 105 98 100] "k") (long 1 50 50)
     = Return (resolved SKIP 0 (Some "end of day"%string) 100 103.5 96.5).
Proof. repeat split. Qed.

(** *** Aggregate statistics *)

(** C6: with valid parameters [simulate] runs [simulateOne] once per
    view, tags each result with the view's key, and returns the counts
    of wins, losses and skipped trades, decisive = wins + losses,
    winRate = wins / decisive * 100 and avgPnL = (sum of the pnl of the
    decisive trades) / decisive, both 0 when decisive = 0.  Three views
    yielding WIN (+5), WIN (+5), LOSS (-3) give wins 2, losses 1,
    skipped 0, decisive 3, winRate 66.67 and avgPnL 2.333 to the digits
    shown. *)
Theorem simulate_statistics (charts : list Chart.t) (p : Params.t) :
  validParams p ->
  exists stats,
    simulate charts (Some p) = Return (Some stats)
    /\ Forall2 (tradeOf p) charts (Stats.trades stats)
    /\ Stats.wins stats = count WIN (Stats.trades stats)
    /\ Stats.losses stats = count LOSS (Stats.trades stats)
    /\ Stats.skipped stats = count SKIP (Stats.trades stats)
    /\ Stats.decisive stats = (Stats.wins stats + Stats.losses stats)%nat
    /\ Stats.winRate stats
       = (if (Stats.decisive stats =? 0)%nat then 0
          else of_nat (Stats.wins stats) / of_nat (Stats.decisive stats) * 100)
    /\ Stats.avgPnL stats
       = (if (Stats.decisive stats =? 0)%nat then 0
          else sumPnL 0 (decisiveTrades (Stats.trades stats))
               / of_nat (Stats.decisive stats))
    /\ (forall c1 c2 c3 r1 r2 r3,
          charts = [c1; c2; c3] ->
          simulateOne c1 p = Return r1 ->
          simulateOne c2 p = Return r2 ->
          simulateOne c3 p = Return r3 ->
          Result.outcome r1 = WIN /\ Result.pnl r1 = 5 ->
          Result.outcome r2 = WIN /\ Result.pnl r2 = 5 ->
          Result.outcome r3 = LOSS /\ Result.pnl r3 = -3 ->
          Stats.wins stats = 2%nat /\ Stats.losses stats = 1%nat
          /\ Stats.skipped stats = 0%nat /\ Stats.decisive stats = 3%nat
          /\ Stats.winRate stats = 2 / 3 * 100
          /\ (66665 / 1000 <? Stats.winRate stats) = true
          /\ (Stats.winRate stats <? 66675 / 1000) = true
          /\ Stats.avgPnL stats = 7 / 3
          /\ (23325 / 10000 <? Stats.avgPnL stats) = true
          /\ (Stats.avgPnL stats <? 23335 / 10000) = true).
Proof.
  intros V. destruct (simulate_valid charts p V) as (ts & F & E).
  eexists. split; [ exact E | ]. cbn [Stats.trades Stats.wins Stats.losses
    Stats.skipped Stats.decisive Stats.winRate Stats.avgPnL].
  split; [ exact F | ].
  do 4 (split; [ reflexivity | ]).
  assert (Z : forall n, (0 <? n)%nat = negb (n =? 0)%nat) by (intros []; reflexivity).
  rewrite Z.
  split; [ destruct (_ =? 0)%nat; reflexivity | ].
  split; [ destruct (_ =? 0)%nat; reflexivity | ].
  intros c1 c2 c3 r1 r2 r3 -> H1 H2 H3 [O1 P1] [O2 P2] [O3 P3].
  inversion F as [ | ? t1 ? ? [_ T1] F1]; subst.
  inversion F1 as [ | ? t2 ? ? [_ T2] F2]; subst.
  inversion F2 as [ | ? t3 ? ? [_ T3] F3]; subst.
  inversion F3; subst.
  rewrite H1 in T1. rewrite H2 in T2. rewrite H3 in T3.
  injection T1 as T1. injection T2 as T2. injection T3 as T3.
  subst r1 r2 r3.
  unfold count, decisiveTrades, sumPnL, is_outcome. simpl.
  rewrite O1, O2, O3. simpl. rewrite P1, P2, P3.
  repeat split.
Qed.

Lemma simulate_statistics_witness :
  exists stats,
    simulate [chartOf winningDay "a"; chartOf winningDay "b"; chartOf losingDay "c"]
      (Some (long 1 50 50)) = Return (Some stats)
    /\ Stats.wins stats = 2%nat /\ Stats.losses stats = 1%nat
    /\ Stats.skipped stats = 0%nat /\ Stats.decisive stats = 3%nat
    /\ Stats.winRate stats = 2 / 3 * 100
    /\ Stats.avgPnL stats = 7 / 3.
Proof.
  destruct (simulate_statistics
              [chartOf winningDay "a"; chartOf winningDay "b"; chartOf losingDay "c"]
              (long 1 50 50)
              (conj eq_refl (ex_intro _ 0%nat eq_refl)))
    as (stats & E & _ & _ & _ & _ & _ & _ & _ & S).
  exists stats. split; [ exact E | ].
  destruct (S _ _ _ _ _ _ eq_refl eq_refl eq_refl eq_refl
              (conj eq_refl eq_refl) (conj eq_refl eq_refl) (conj eq_refl eq_refl))
    as (W & L & K & D & R & _ & _ & A & _).
  repeat split; assumption.
Defined.

(** C10: with valid parameters, the result of [simulate] has exactly one
    trade per input view, in the order of the views, each with the key
    of its view; wins + losses + skipped is the number of views; and a
    trade whose outcome is SKIP has pnl 0 and is left out of the sum
    behind avgPnL. *)
Theorem simulate_one_trade_per_view (charts : list Chart.t) (p : Params.t) :
  validParams p ->
  exists stats,
    simulate charts (Some p) = Return (Some stats)
    /\ List.length (Stats.trades stats) = List.length charts
    /\ map Trade.key (Stats.trades stats) = map Chart.key charts
    /\ Forall2 (tradeOf p) charts (Stats.trades stats)
    /\ (Stats.wins stats + Stats.losses stats + Stats.skipped stats)%nat
       = List.length charts
    /\ (forall t, In t (Stats.trades stats) ->
          Result.outcome (Trade.result t) = SKIP ->
          Result.pnl (Trade.result t) = 0
          /\ ~ In t (decisiveTrades (Stats.trades stats)))
    /\ Stats.avgPnL stats
       = (if (Stats.decisive stats =? 0)%nat then 0
          else sumPnL 0 (decisiveTrades (Stats.trades stats))
               / of_nat (Stats.decisive stats)).
Proof.
  intros V. destruct (simulate_valid charts p V) as (ts & F & E).
  eexists. split; [ exact E | ]. cbn [Stats.trades Stats.wins Stats.losses
    Stats.skipped Stats.decisive Stats.avgPnL].
  assert (Len : List.length ts = List.length charts)
    by (symmetry; exact (Forall2_length F)).
  split; [ exact Len | ].
  split.
  { clear E Len. induction F as [ | c t cs ts' [K _] _ IH]; [ reflexivity | ].
    simpl. rewrite K, IH. reflexivity. }
  split; [ exact F | ].
  split; [ rewrite count_partition; exact Len | ].
  split.
  - intros t I O. split.
    + clear E Len. induction F as [ | c t' cs ts' [_ R] _ IH]; [ destruct I | ].
      destruct I as [ <- | I ]; [ | exact (IH I) ].
      exact (simulateOne_skip_pnl _ _ _ R O).
    + unfold decisiveTrades. rewrite filter_In. intros [_ N].
      unfold is_outcome in N. rewrite O in N. discriminate.
  - destruct (count WIN ts + count LOSS ts)%nat; reflexivity.
Qed.

Lemma simulate_one_trade_per_view_witness :
  exists stats,
    simulate [chartOf winningDay "a"; chartOf [mkBar 0 1 1 1 1] "b";
              chartOf losingDay "c"] (Some (long 1 50 50))
    = Return (Some stats)
    /\ map Trade.key (Stats.trades stats) = ["a"; "b"; "c"]%string
    /\ (Stats.wins stats + Stats.losses stats + Stats.skipped stats)%nat = 3%nat.
Proof.
  destruct (simulate_one_trade_per_view
              [chartOf winningDay "a"; chartOf [mkBar 0 1 1 1 1] "b";
               chartOf losingDay "c"]
              (long 1 50 50)
              (conj eq_refl (ex_intro _ 0%nat eq_refl)))
    as (stats & E & _ & K & _ & C & _).
  exists stats. split; [ exact E | split; [ exact K | exact C ] ].
Defined.

End SimulatorProperties.

(* ================================================================= *)
(** ** Further properties of the renderer *)

Module RendererExtras.

Import JSNum JSNumFacts ChartRenderer ChartRendererFacts.
Local Open Scope float_scope.

(** *** More on the order of numbers *)

Lemma ltb_nan_l x y : is_nan x = true -> (x <? y) = false.
Proof.
  rewrite is_nan_SFnan, ltb_spec. unfold SFltb. intros H.
  destruct (Prim2SF x); try discriminate. reflexivity.
Qed.

Lemma ltb_nan_r x y : is_nan y = true -> (x <? y) = false.
Proof.
  rewrite is_nan_SFnan, ltb_spec. unfold SFltb. intros H.
  destruct (Prim2SF y); try discriminate.
  destruct (Prim2SF x) as [ | | | [] ? ? ]; reflexivity.
Qed.

Lemma leb_not_nan x y :
  (x <=? y) = true -> is_nan x = false /\ is_nan y = false.
Proof.
  rewrite !is_nan_SFnan, leb_spec. unfold SFleb.
  destruct (SFcompare (Prim2SF x) (Prim2SF y)) eqn:E; [ | discriminate ].
  intros _.
  destruct (SFnan (Prim2SF x)) eqn:Nx.
  - assert (SFcompare (Prim2SF x) (Prim2SF y) = None)
      by (apply SFcompare_nan; auto). congruence.
  - destruct (SFnan (Prim2SF y)) eqn:Ny; [ | auto ].
    assert (SFcompare (Prim2SF x) (Prim2SF y) = None)
      by (apply SFcompare_nan; auto). congruence.
Qed.

Lemma ltb_asym x y : (x <? y) = true -> (y <? x) = false.
Proof. intros H. apply leb_ltb_false, ltb_leb, H. Qed.

(** Neither below nor above, and no NaN: equal as numbers. *)
Lemma eqb_ltb x y :
  is_nan x = false -> is_nan y = false ->
  ((x =? y) = true <-> (x <? y) = false /\ (y <? x) = false).
Proof.
  rewrite !is_nan_SFnan, eqb_spec, !ltb_spec. unfold SFeqb, SFltb.
  intros Hx Hy. rewrite (SFcompare_swap (Prim2SF x) (Prim2SF y)).
  destruct (SFcompare (Prim2SF x) (Prim2SF y)) as [ [] | ] eqn:E; simpl.
  - split; auto.
  - split; [ discriminate | intros [? _]; discriminate ].
  - split; [ discriminate | intros [_ ?]; discriminate ].
  - apply SFcompare_nan in E. destruct E; congruence.
Qed.

(** *** Directions *)

(** X1: the three directions exclude one another and are decided by the
    order of open and close: UP iff close > open, DOWN iff close < open,
    FLAT iff neither; without NaN, FLAT iff close equals open as a
    number, and a bar whose open or close is NaN is FLAT. *)
Theorem barDirection_classes (bar : Bar) :
  (barDirection bar = "UP"%string <-> (open bar <? close bar) = true)
  /\ (barDirection bar = "DOWN"%string <-> (close bar <? open bar) = true)
  /\ (barDirection bar = "FLAT"%string <->
      (open bar <? close bar) = false /\ (close bar <? open bar) = false)
  /\ (is_nan (open bar) = false -> is_nan (close bar) = false ->
      (barDirection bar = "FLAT"%string <-> (close bar =? open bar) = true))
  /\ (is_nan (open bar) = true \/ is_nan (close bar) = true ->
      barDirection bar = "FLAT"%string).
Proof.
  assert (F : barDirection bar = "FLAT"%string <->
              (open bar <? close bar) = false /\ (close bar <? open bar) = false).
  { unfold barDirection.
    destruct (open bar <? close bar); [ split; [ discriminate | intros [? _]; discriminate ] | ].
    destruct (close bar <? open bar); [ split; [ discriminate | intros [_ ?]; discriminate ] | ].
    split; auto. }
  split; [ | split; [ | split; [ exact F | split ] ] ].
  - unfold barDirection.
    destruct (open bar <? close bar); [ split; reflexivity | ].
    destruct (close bar <? open bar); split; discriminate.
  - unfold barDirection.
    destruct (open bar <? close bar) eqn:U.
    + rewrite (ltb_asym _ _ U). split; discriminate.
    + destruct (close bar <? open bar); split; try reflexivity; discriminate.
  - intros No Nc. rewrite F, (eqb_ltb _ _ Nc No). tauto.
  - intros [N | N]; apply F.
    + split; [ apply ltb_nan_l, N | apply ltb_nan_r, N ].
    + split; [ apply ltb_nan_r, N | apply ltb_nan_l, N ].
Qed.

(** *** What aggregation keeps *)

(** An OHLC bar whose open and close lie between its low and its high. *)
Definition contained (b : Bar) : Prop :=
  (low b <=? open b) = true /\ (open b <=? high b) = true
  /\ (low b <=? close b) = true /\ (close b <=? high b) = true.

(** Whatever the frequency, the result is the roll-up of the chunks of
    some factor: 1, 2, or 3 for every other string. *)
Lemma aggregateToFrequency_any bars freq :
  exists k, (1 <= k)%nat
    /\ aggregateToFrequency bars freq
       = flat_map rollup (chunksOf (List.length bars) k bars).
Proof.
  unfold aggregateToFrequency.
  destruct (freq =? "5min")%string.
  - exists 1%nat. split; [ lia | ]. symmetry. apply chunks_one. lia.
  - destruct (freq =? "10min")%string.
    + exists 2%nat. split; [ lia | ].
      change (10 / 5)%nat with 2%nat. rewrite aggregateLoop_chunks by lia. reflexivity.
    + exists 3%nat. split; [ lia | ].
      change (15 / 5)%nat with 3%nat. rewrite aggregateLoop_chunks by lia. reflexivity.
Qed.

Lemma chunk_bars k bars chunks c b :
  Chunked k bars chunks -> In c chunks -> In b c -> In b bars.
Proof.
  intros (E & _) Hc Hb. rewrite <- E. apply in_concat. exists c. auto.
Qed.

Lemma Rollup_contained chunk b :
  Forall contained chunk -> Rollup chunk b -> contained b.
Proof.
  intros A (first & final & Hf & Hl & _ & Ho & [_ Hmax] & [_ Hmin] & Hc).
  assert (If : In first chunk) by (destruct chunk; [ discriminate | left; simpl in Hf; congruence ]).
  assert (Il : In final chunk) by (exact (nth_error_In _ _ Hl)).
  rewrite Forall_forall in A.
  assert (Nh : no_nan (map high chunk)).
  { unfold no_nan. rewrite Forall_map, Forall_forall. intros x Hx.
    destruct (A x Hx) as (_ & H & _). apply (leb_not_nan _ _ H). }
  assert (Nl : no_nan (map low chunk)).
  { unfold no_nan. rewrite Forall_map, Forall_forall. intros x Hx.
    destruct (A x Hx) as (H & _). apply (leb_not_nan _ _ H). }
  destruct (Hmax Nh) as [_ Fh]. destruct (Hmin Nl) as [_ Fl].
  rewrite Forall_map, Forall_forall in Fh, Fl.
  destruct (A first If) as (F1 & F2 & _).
  destruct (A final Il) as (_ & _ & L3 & L4).
  unfold contained. rewrite Ho, Hc.
  repeat split.
  - exact (leb_trans _ _ _ (Fl first If) F1).
  - exact (leb_trans _ _ _ F2 (Fh first If)).
  - exact (leb_trans _ _ _ (Fl final Il) L3).
  - exact (leb_trans _ _ _ L4 (Fh final Il)).
Qed.

(** X2: aggregation keeps the containment of OHLC bars: when the open
    and the close of every input bar lie between its low and its high,
    so do those of every output bar, at every frequency. *)
Theorem aggregateToFrequency_contained (bars : list Bar) (freq : string) :
  Forall contained bars ->
  Forall contained (aggregateToFrequency bars freq).
Proof.
  intros A.
  destruct (aggregateToFrequency_any bars freq) as (k & Hk & ->).
  destruct (chunksOf_Chunked k Hk _ bars (Nat.le_refl _)) as [C _].
  set (chunks := chunksOf (List.length bars) k bars) in *.
  assert (R : Forall2 Rollup chunks (flat_map rollup chunks)).
  { apply flat_map_rollup. intros c Hc.
    destruct C as (_ & C2 & _). specialize (C2 c Hc).
    destruct c; [ simpl in C2; lia | discriminate ]. }
  assert (G : forall c, In c chunks -> Forall contained c).
  { intros c Hc. apply Forall_forall. intros b Hb.
    rewrite Forall_forall in A. apply A. exact (chunk_bars _ _ _ _ _ C Hc Hb). }
  clear C. induction R as [ | c b cs bs Rb _ IH]; [ constructor | ].
  constructor.
  - apply (Rollup_contained c b); [ apply G; left; reflexivity | exact Rb ].
  - apply IH. intros c' Hc'. apply G. right. exact Hc'.
Qed.

Lemma aggregateToFrequency_contained_witness :
  Forall contained
    (aggregateToFrequency
       [mkBar 0 10 12 9 11; mkBar 1 11 13 11 12; mkBar 2 12 12 10 11] "10min").
Proof.
  apply aggregateToFrequency_contained.
  repeat constructor.
Defined.

(** The day's first and last bars. *)
Lemma chunks_hd fuel k l : (1 <= k)%nat -> (List.length l <= fuel)%nat ->
  hd_error (map open (flat_map rollup (chunksOf fuel k l))) = hd_error (map open l)
  /\ hd_error (map timestamp (flat_map rollup (chunksOf fuel k l)))
     = hd_error (map timestamp l).
Proof.
  intros Hk Hl. destruct l as [ | b rest].
  - destruct fuel; split; reflexivity.
  - destruct fuel as [ | fuel]; [ simpl in Hl; lia | ].
    destruct k as [ | k]; [ lia | ]. split; reflexivity.
Qed.

Lemma last_app_r {A : Type} (l1 l2 : list A) d :
  l2 <> [] -> last (l1 ++ l2) d = last l2 d.
Proof.
  intros H. induction l1 as [ | x l1 IH]; [ reflexivity | ].
  simpl. rewrite IH. destruct (l1 ++ l2) eqn:E; [ | reflexivity ].
  apply app_eq_nil in E. destruct E. congruence.
Qed.

Lemma last_map_cons {A B : Type} (f : A -> B) x l d d' :
  last (map f (x :: l)) d = f (last (x :: l) d').
Proof.
  revert x. induction l as [ | y l IH]; intros x; [ reflexivity | ].
  change (last (map f (y :: l)) d = f (last (y :: l) d')). apply IH.
Qed.

Lemma chunks_last k : (1 <= k)%nat -> forall fuel l d,
  (List.length l <= fuel)%nat ->
  last (map close (flat_map rollup (chunksOf fuel k l))) d = last (map close l) d.
Proof.
  intros Hk. induction fuel as [ | fuel IH]; intros l d Hl.
  - destruct l; [ reflexivity | simpl in Hl; lia ].
  - destruct l as [ | b rest]; [ reflexivity | ].
    remember (b :: rest) as l eqn:El.
    assert (Ll : List.length l = S (List.length rest)) by (subst l; reflexivity).
    assert (Ec : chunksOf (S fuel) k l = firstn k l :: chunksOf fuel k (skipn k l))
      by (subst l; reflexivity).
    rewrite Ec. cbn [flat_map]. rewrite map_app.
    assert (Hs : (List.length (skipn k l) <= fuel)%nat)
      by (rewrite length_skipn; lia).
    assert (Ef : rollup (firstn k l) = [aggregated b (firstn k l)]).
    { subst l. destruct k; [ lia | reflexivity ]. }
    destruct (skipn k l) as [ | b' rest'] eqn:Sk.
    + assert (Fl : firstn k l = l).
      { rewrite <- (firstn_skipn k l) at 2. rewrite Sk, app_nil_r. reflexivity. }
      destruct fuel; cbn [chunksOf flat_map map]; rewrite app_nil_r, Ef, Fl;
        cbn [map aggregated close last]; subst l;
        symmetry; apply last_map_cons.
    + assert (Ne : map close (flat_map rollup (chunksOf fuel k (b' :: rest'))) <> []).
      { destruct fuel; [ simpl in Hs; lia | ].
        cbn [chunksOf flat_map]. destruct k; [ lia | ]. discriminate. }
      rewrite last_app_r by exact Ne.
      rewrite IH by exact Hs.
      rewrite <- Sk, <- skipn_map.
      assert (N2 : skipn k (map close l) <> [])
        by (rewrite skipn_map, Sk; discriminate).
      rewrite <- (firstn_skipn k (map close l)) at 2.
      symmetry. apply last_app_r. exact N2.
Qed.

(** X3: aggregation keeps the ends of the day: at every frequency the
    first output bar has the timestamp and the open of the first input
    bar, and the last output bar has the close of the last input bar. *)
Theorem aggregateToFrequency_ends (bars : list Bar) (freq : string) (d : float) :
  let out := aggregateToFrequency bars freq in
  hd_error (map timestamp out) = hd_error (map timestamp bars)
  /\ hd_error (map open out) = hd_error (map open bars)
  /\ last (map close out) d = last (map close bars) d
  /\ (out = [] <-> bars = []).
Proof.
  cbv zeta.
  destruct (aggregateToFrequency_any bars freq) as (k & Hk & ->).
  destruct (chunks_hd (List.length bars) k bars Hk (Nat.le_refl _)) as [H1 H2].
  split; [ exact H2 | split; [ exact H1 | split ] ].
  - apply chunks_last; [ exact Hk | lia ].
  - destruct bars as [ | b rest]; [ split; reflexivity | ].
    split; [ | discriminate ].
    intros E. rewrite E in H1. discriminate.
Qed.

End RendererExtras.

(* ================================================================= *)
(** ** Further properties of the data processor *)

Module ProcessorExtras.

Import JSNum ChartRenderer DataProcessor DataProcessorFacts.

(** *** Looking a day up *)

Lemma find_first {A : Type} (p : A -> bool) (l : list A) x :
  find p l = Some x <->
  exists pre post, l = pre ++ x :: post /\ p x = true
                   /\ (forall y, In y pre -> p y = false).
Proof.
  induction l as [ | a l IH]; simpl.
  - split; [ discriminate | ].
    intros (pre & post & E & _). destruct pre; discriminate.
  - destruct (p a) eqn:Pa.
    + split.
      * intros [= <-]. exists [], l. repeat split; auto. intros y [].
      * intros (pre & post & E & Px & N). destruct pre as [ | b pre].
        -- simpl in E. congruence.
        -- simpl in E. injection E as <- _.
           rewrite (N a (or_introl eq_refl)) in Pa. discriminate.
    + rewrite IH. split.
      * intros (pre & post & -> & Px & N). exists (a :: pre), post.
        repeat split; auto. intros y [ <- | Hy ]; auto.
      * intros (pre & post & E & Px & N). destruct pre as [ | b pre].
        -- simpl in E. injection E as -> _. congruence.
        -- simpl in E. injection E as <- ->. exists pre, post.
           repeat split; auto. intros y Hy. apply N. right. exact Hy.
Qed.

(** [entry] is the first entry of the catalog for ([sourceName], [date]). *)
Definition firstFor (pc : list Entry.t) (sourceName date : string)
    (entry : Entry.t) : Prop :=
  exists pre post,
    pc = pre ++ entry :: post
    /\ Entry.source entry = sourceName /\ Entry.date entry = date
    /\ (forall e, In e pre ->
          ~ (Entry.source e = sourceName /\ Entry.date e = date)).

Lemma find_firstFor pc sourceName date entry :
  find (fun c => (Entry.source c =? sourceName)%string
                 && (Entry.date c =? date)%string) pc = Some entry
  <-> firstFor pc sourceName date entry.
Proof.
  rewrite find_first. unfold firstFor.
  split.
  - intros (pre & post & E & P & N). exists pre, post.
    apply andb_true_iff in P. rewrite !String.eqb_eq in P. destruct P.
    repeat split; auto. intros e He [C1 C2].
    specialize (N e He). simpl in N. rewrite C1, C2, !String.eqb_refl in N.
    discriminate.
  - intros (pre & post & E & P1 & P2 & N). exists pre, post.
    split; [ exact E | split ].
    + rewrite P1, P2, !String.eqb_refl. reflexivity.
    + intros y Hy. destruct (_ && _) eqn:B; [ | reflexivity ].
      apply andb_true_iff in B. rewrite !String.eqb_eq in B.
      exfalso. exact (N y Hy B).
Qed.

(** The view found for a source and a date comes from the first entry
    for them. *)
Lemma getTradingDayData_found pc sourceName date freq maxBars chartData :
  getTradingDayData pc sourceName date freq maxBars = Some chartData ->
  exists entry,
    firstFor pc sourceName date entry
    /\ ChartData.source chartData = sourceName
    /\ ChartData.date chartData = date
    /\ ChartData.frequency chartData = freq
    /\ ChartData.maxBars chartData = maxBars
    /\ ChartData.gapDirection chartData = Entry.gapDirection entry
    /\ ChartData.gapSizeClass chartData = Entry.gapSizeClass entry
    /\ ChartData.openAbovePrevHigh chartData = Entry.openAbovePrevHigh entry
    /\ ChartData.closeBelowPrevLow chartData = Entry.closeBelowPrevLow entry
    /\ ChartData.bars chartData
       = (let aggregated := aggregateToFrequency (Entry.bars entry) freq in
          if (maxBars <? 999)%Z && (maxBars <? Z.of_nat (List.length aggregated))%Z
          then slice0 aggregated maxBars else aggregated).
Proof.
  unfold getTradingDayData.
  destruct (find _ pc) as [entry | ] eqn:F; [ | discriminate ].
  pose proof (proj1 (find_firstFor _ _ _ _) F) as FF.
  intros [= <-]. exists entry. simpl.
  destruct FF as (pre & post & E & P1 & P2 & N).
  repeat split; auto. exists pre, post. repeat split; auto.
Qed.

(** X4: [getTradingDayData] misses exactly when no entry of the catalog
    has the source and the date asked for; otherwise it builds the view
    from the first such entry, whose source, date and gap labels it
    carries together with the frequency and the bars option asked. *)
Theorem getTradingDayData_lookup (pc : list Entry.t) (sourceName date freq : string)
    (maxBars : Z) :
  (getTradingDayData pc sourceName date freq maxBars = None <->
     forall e, In e pc -> ~ (Entry.source e = sourceName /\ Entry.date e = date))
  /\ (forall chartData,
        getTradingDayData pc sourceName date freq maxBars = Some chartData ->
        exists entry,
          firstFor pc sourceName date entry
          /\ ChartData.source chartData = sourceName
          /\ ChartData.date chartData = date
          /\ ChartData.frequency chartData = freq
          /\ ChartData.maxBars chartData = maxBars
          /\ ChartData.gapDirection chartData = Entry.gapDirection entry
          /\ ChartData.gapSizeClass chartData = Entry.gapSizeClass entry
          /\ ChartData.openAbovePrevHigh chartData = Entry.openAbovePrevHigh entry
          /\ ChartData.closeBelowPrevLow chartData = Entry.closeBelowPrevLow entry).
Proof.
  unfold getTradingDayData.
  destruct (find _ pc) as [entry | ] eqn:F.
  - pose proof (proj1 (find_firstFor _ _ _ _) F) as FF. split.
    + split; [ discriminate | ]. intros N. exfalso.
      destruct FF as (pre & post & -> & P1 & P2 & _).
      apply (N entry); [ apply in_elt | auto ].
    + intros cd [= <-]. exists entry. simpl.
      destruct FF as (pre & post & E & P1 & P2 & N).
      repeat split; auto. exists pre, post. repeat split; auto.
  - split; [ | discriminate ]. split; [ | reflexivity ].
    intros _ e He [C1 C2]. pose proof (find_none _ _ F e He) as N.
    simpl in N. rewrite C1, C2, !String.eqb_refl in N. discriminate.
Qed.

(** X5: the bars of a view are the aggregated bars of its entry cut to
    the bars option: untouched from 999 on, the first [maxBars] bars for
    [0 <= maxBars < 999], and for a negative option all but the last
    [- maxBars] bars; the two derived sequences have one class per bar. *)
Theorem getTradingDayData_bars (pc : list Entry.t) (sourceName date freq : string)
    (maxBars : Z) (chartData : ChartData.t) :
  getTradingDayData pc sourceName date freq maxBars = Some chartData ->
  exists entry,
    firstFor pc sourceName date entry
    /\ let aggregated := aggregateToFrequency (Entry.bars entry) freq in
       let bars := ChartData.bars chartData in
       ((999 <= maxBars)%Z -> bars = aggregated)
       /\ ((0 <= maxBars < 999)%Z ->
           bars = firstn (Z.to_nat maxBars) aggregated
           /\ List.length bars = Nat.min (Z.to_nat maxBars) (List.length aggregated))
       /\ ((maxBars < 0)%Z ->
           bars = firstn (List.length aggregated - Z.to_nat (- maxBars)) aggregated
           /\ List.length bars = (List.length aggregated - Z.to_nat (- maxBars))%nat)
       /\ List.length (ChartData.barDirections chartData) = List.length bars
       /\ List.length (ChartData.bodyRatios chartData) = List.length bars.
Proof.
  unfold getTradingDayData.
  destruct (find _ pc) as [entry | ] eqn:F; [ | discriminate ].
  intros [= <-]. exists entry.
  split; [ apply find_firstFor, F | ]. cbv zeta. cbn [ChartData.bars
    ChartData.barDirections ChartData.bodyRatios].
  set (agg := aggregateToFrequency (Entry.bars entry) freq).
  unfold calculateBarDirections, calculateBodyRatios. rewrite !length_map.
  split; [ | split; [ | split; [ | split; reflexivity ] ] ].
  - intros H. destruct (Z.ltb_spec maxBars 999); [ lia | reflexivity ].
  - intros H. destruct (Z.ltb_spec maxBars 999); [ | lia ].
    unfold slice0. destruct (Z.ltb_spec maxBars 0); [ lia | ].
    destruct (Z.ltb_spec maxBars (Z.of_nat (List.length agg))); simpl.
    + split; [ reflexivity | ]. rewrite length_firstn. reflexivity.
    + rewrite firstn_all2 by lia. split; [ reflexivity | lia ].
  - intros H. destruct (Z.ltb_spec maxBars 999); [ | lia ].
    destruct (Z.ltb_spec maxBars (Z.of_nat (List.length agg))); [ | lia ]. simpl.
    unfold slice0. destruct (Z.ltb_spec maxBars 0); [ | lia ].
    replace (Z.to_nat (Z.max (Z.of_nat (List.length agg) + maxBars) 0))
      with (List.length agg - Z.to_nat (- maxBars))%nat by lia.
    split; [ reflexivity | ]. rewrite length_firstn. lia.
Qed.

Lemma getTradingDayData_bars_witness :
  exists chartData,
    getTradingDayData [sampleEntry] "ES" "20240102" "10min" 2 = Some chartData
    /\ List.length (ChartData.bars chartData) = 2%nat.
Proof.
  eexists. split; [ reflexivity | ].
  destruct (getTradingDayData_bars [sampleEntry] "ES" "20240102" "10min" 2 _ eq_refl)
    as (entry & _ & _ & _ & _ & _ & _).
  reflexivity.
Defined.

(** *** The per-bar pass as a filter *)

(** The filter object without its bar filters. *)
Definition withoutBarFilters (f : Filters.t) : Filters.t :=
  {| Filters.sources := Filters.sources f;
     Filters.frequencies := Filters.frequencies f;
     Filters.barsOptions := Filters.barsOptions f;
     Filters.gapDirections := Filters.gapDirections f;
     Filters.gapSizeClasses := Filters.gapSizeClasses f;
     Filters.prevDayFilters := Filters.prevDayFilters f;
     Filters.barFilters := None |}.

Definition meets (barFilters : list BarFilter.t) (chart : Chart.t) : bool :=
  matchesBarFilters (Chart.data chart) barFilters.

Lemma filter_flat_map {A B : Type} (p : B -> bool) (g : A -> list B) (l : list A) :
  filter p (flat_map g l) = flat_map (fun x => filter p (g x)) l.
Proof.
  induction l as [ | x l IH]; [ reflexivity | ].
  simpl. rewrite filter_app, IH. reflexivity.
Qed.

Lemma generateChart_meets pc barFilters entry freq barsOpt :
  pushed (generateChart pc barFilters entry freq barsOpt)
  = filter (meets barFilters) (pushed (generateChart pc [] entry freq barsOpt)).
Proof.
  unfold generateChart.
  destruct (getTradingDayData pc _ _ freq barsOpt) as [cd | ]; [ | reflexivity ].
  destruct (List.length (ChartData.bars cd) <? 5)%nat; [ reflexivity | ].
  simpl. unfold meets. simpl.
  destruct barFilters as [ | bf rest]; [ reflexivity | ].
  change (0 <? List.length (bf :: rest))%nat with true. rewrite andb_true_l.
  destruct (matchesBarFilters cd (bf :: rest)); reflexivity.
Qed.

(** X6: the per-bar pass is a filter over the result without bar
    filters: [getFilteredCharts] returns, in the same order, the charts
    of the unconstrained result that meet every bar filter, so adding
    bar filters never adds a chart. *)
Theorem getFilteredCharts_bar_pass (pc : list Entry.t) (f : Filters.t) :
  getFilteredCharts pc f
  = filter (meets (barFiltersOf f)) (getFilteredCharts pc (withoutBarFilters f))
  /\ (forall chart, In chart (getFilteredCharts pc f) ->
        In chart (getFilteredCharts pc (withoutBarFilters f))).
Proof.
  assert (E : getFilteredCharts pc f
              = filter (meets (barFiltersOf f))
                  (getFilteredCharts pc (withoutBarFilters f))).
  { unfold getFilteredCharts. rewrite !entriesLoop_eq. simpl.
    rewrite filter_flat_map. apply flat_map_ext. intros entry.
    destruct (entryPasses _ _ _ _ entry); [ | reflexivity ].
    rewrite filter_flat_map. apply flat_map_ext. intros freq.
    rewrite filter_flat_map. apply flat_map_ext. intros barsOpt.
    apply generateChart_meets. }
  split; [ exact E | ].
  intros chart I. rewrite E in I. apply filter_In in I. tauto.
Qed.

(** *** What every chart of the result has *)

(** The composite key of a view, from the view's own fields. *)
Definition keyOf (chartData : ChartData.t) : string :=
  (ChartData.source chartData ++ "-" ++ ChartData.date chartData ++ "-"
   ++ ChartData.frequency chartData ++ "-"
   ++ string_of_Z (ChartData.maxBars chartData))%string.

Lemma length_flat_map_le {A B : Type} (g : A -> list B) (l : list A) n :
  (forall x, In x l -> List.length (g x) <= n)%nat ->
  (List.length (flat_map g l) <= List.length l * n)%nat.
Proof.
  induction l as [ | x l IH]; intros H; [ simpl; lia | ].
  simpl. rewrite length_app.
  pose proof (H x (or_introl eq_refl)).
  assert (List.length (flat_map g l) <= List.length l * n)%nat
    by (apply IH; intros y Hy; apply H; right; exact Hy).
  lia.
Qed.

(** X7: every chart returned by [getFilteredCharts] has at least 5 bars,
    one direction and one body-ratio class per bar, a requested
    frequency and a requested bars option, a selected source, and the
    key source-date-frequency-barsOption of its own fields; and there
    are at most entries x frequencies x bars options charts. *)
Theorem getFilteredCharts_charts (pc : list Entry.t) (f : Filters.t) :
  (forall chart, In chart (getFilteredCharts pc f) ->
     let view := Chart.data chart in
     (5 <= List.length (ChartData.bars view))%nat
     /\ ChartData.barDirections view = map barDirection (ChartData.bars view)
     /\ ChartData.bodyRatios view = map bodyRatio (ChartData.bars view)
     /\ In (ChartData.frequency view) (frequenciesOf f)
     /\ In (ChartData.maxBars view) (barsOptionsOf f)
     /\ admits (sourcesOf f) (ChartData.source view)
     /\ Chart.key chart = keyOf view)
  /\ (List.length (getFilteredCharts pc f)
      <= List.length pc * (List.length (frequenciesOf f)
                           * List.length (barsOptionsOf f)))%nat.
Proof.
  split.
  - intros chart I. cbv zeta.
    apply In_getFilteredCharts in I.
    destruct I as (entry & freq & barsOpt & He & P & Hf & Hb & G).
    apply generateChart_Some in G. destruct G as (cd & D & L & _ & ->).
    cbn [Chart.data Chart.key].
    destruct (getTradingDayData_derived _ _ _ _ _ _ D) as [D1 D2].
    apply entryPasses_spec in P. destruct P as (P1 & _).
    destruct (getTradingDayData_found pc _ _ freq barsOpt cd D)
      as (e & _ & S1 & S2 & S3 & S4 & _).
    unfold keyOf, viewKey. rewrite S1, S2, S3, S4.
    repeat split; assumption.
  - unfold getFilteredCharts. rewrite entriesLoop_eq. simpl.
    apply length_flat_map_le. intros entry _.
    destruct (entryPasses _ _ _ _ entry); [ | simpl; lia ].
    apply length_flat_map_le. intros freq _.
    eapply Nat.le_trans;
      [ apply (length_flat_map_le _ _ 1%nat); intros barsOpt _;
        destruct (generateChart _ _ _ _ _); simpl; lia
      | unfold barsOptionsOf; lia ].
Qed.

(** *** Catalogs with one entry per source and date *)

(** No two entries of the catalog have the same source and date. *)
Definition uniqueDays (pc : list Entry.t) : Prop :=
  NoDup (map (fun e => (Entry.source e, Entry.date e)) pc).

Lemma uniqueDays_firstFor pc entry :
  uniqueDays pc -> In entry pc ->
  forall e, firstFor pc (Entry.source entry) (Entry.date entry) e -> e = entry.
Proof.
  unfold uniqueDays. intros U I e (pre & post & -> & S1 & S2 & N).
  apply in_app_or in I. destruct I as [ I | [ I | I ] ].
  - exfalso. apply (N entry I). split; reflexivity.
  - exact I.
  - exfalso.
    set (k := fun e => (Entry.source e, Entry.date e)) in *.
    assert (Ek : k e = k entry) by (unfold k; congruence).
    rewrite map_app in U. cbn [map] in U. apply NoDup_remove_2 in U. apply U.
    rewrite Ek. apply in_or_app. right. apply in_map. exact I.
Qed.

(** X8: in a catalog with one entry per source and date, every chart of
    the result is the view of an entry that passed the entry-level
    pass: its gap direction and gap size class are selected and every
    requested previous-day flag is [true] on it. *)
Theorem getFilteredCharts_labels (pc : list Entry.t) (f : Filters.t)
    (chart : Chart.t) :
  uniqueDays pc ->
  In chart (getFilteredCharts pc f) ->
  let view := Chart.data chart in
  admits (gapDirectionsOf f) (ChartData.gapDirection view)
  /\ admits (gapSizeClassesOf f) (ChartData.gapSizeClass view)
  /\ (In "open_above_prev_high"%string (prevDayFiltersOf f) ->
        ChartData.openAbovePrevHigh view = Some true)
  /\ (In "close_below_prev_low"%string (prevDayFiltersOf f) ->
        ChartData.closeBelowPrevLow view = Some true).
Proof.
  intros U I. cbv zeta.
  apply In_getFilteredCharts in I.
  destruct I as (entry & freq & barsOpt & He & P & Hf & Hb & G).
  apply generateChart_Some in G. destruct G as (cd & D & _ & _ & ->).
  cbn [Chart.data].
  destruct (getTradingDayData_found pc _ _ freq barsOpt cd D)
    as (e & FF & _ & _ & _ & _ & G1 & G2 & G3 & G4 & _).
  rewrite (uniqueDays_firstFor pc entry U He e FF) in *.
  rewrite G1, G2, G3, G4.
  apply entryPasses_spec in P. tauto.
Qed.

Lemma getFilteredCharts_labels_witness :
  exists chart,
    In chart (getFilteredCharts [sampleEntry] sampleFilters)
    /\ ChartData.openAbovePrevHigh (Chart.data chart) = Some true.
Proof.
  eexists. split; [ left; reflexivity | ].
  refine (proj1 (proj2 (proj2 (getFilteredCharts_labels [sampleEntry] sampleFilters
                                 _ _ (or_introl eq_refl)))) _).
  - repeat constructor. intros [].
  - left. reflexivity.
Defined.

(** A second entry for the same source and date is never viewed: its
    own chart shows the bars and the labels of the first one, even when
    only the second passes the entry-level pass. *)
Example shadowed_entry :
  let second :=
    {| Entry.source := "ES"; Entry.timezone := "America/New_York";
       Entry.tradingHours := "09:30-16:00"; Entry.date := "20240102";
       Entry.gapDirection := "GAP DOWN"; Entry.gapSizeClass := "large";
       Entry.openAbovePrevHigh := Some false; Entry.closeBelowPrevLow := Some true;
       Entry.prevClose := 10; Entry.prevHigh := 10; Entry.prevLow := 8;
       Entry.bars := []; Entry.barDirections := []; Entry.bodyRatios := [] |} in
  map (fun c => ChartData.gapDirection (Chart.data c))
    (getFilteredCharts [sampleEntry; second]
       {| Filters.sources := None; Filters.frequencies := None;
          Filters.barsOptions := None;
          Filters.gapDirections := Some ["GAP DOWN"%string];
          Filters.gapSizeClasses := None; Filters.prevDayFilters := None;
          Filters.barFilters := None |})
  = ["GAP UP"%string].
Proof. reflexivity. Qed.

(** *** Loading *)

(** The sources of the data file, none when nothing is loaded. *)
Definition loaded (rawData : option RawData.t) : list Source.t :=
  match rawData with
  | Some raw => default [] (RawData.sources raw)
  | None => []
  end.

Lemma daysLoop_eq source days : forall acc,
  daysLoop source days acc = acc ++ map (entryOf source) days.
Proof.
  induction days as [ | day rest IH]; intros acc; simpl.
  - symmetry. apply app_nil_r.
  - rewrite IH, <- app_assoc. reflexivity.
Qed.

Lemma sourcesLoop_eq sources : forall acc,
  sourcesLoop sources acc
  = acc ++ flat_map (fun s => map (entryOf s) (Source.tradingDays s)) sources.
Proof.
  induction sources as [ | s rest IH]; intros acc; simpl.
  - symmetry. apply app_nil_r.
  - rewrite IH, daysLoop_eq, <- app_assoc. reflexivity.
Qed.

Lemma processCharts_eq rawData :
  processCharts rawData
  = flat_map (fun s => map (entryOf s) (Source.tradingDays s)) (loaded rawData).
Proof.
  unfold processCharts, loaded.
  destruct rawData as [raw | ]; [ | reflexivity ].
  destruct (RawData.sources raw) as [ss | ]; [ | reflexivity ].
  simpl. apply sourcesLoop_eq.
Qed.

(** X9: [processCharts] makes one entry per trading day of every
    source, and what it loads can be looked up: the source of every
    entry is listed by [getSources] and known to [getSourceMetadata],
    and [getTradingDayData] finds a view for its source and date at
    every frequency and bars option. *)
Theorem processCharts_lookup (rawData : option RawData.t) :
  let pc := processCharts rawData in
  getTotalTradingDays pc
  = list_sum (map (fun s => List.length (Source.tradingDays s)) (loaded rawData))
  /\ (forall e, In e pc <->
        exists s d, In s (loaded rawData) /\ In d (Source.tradingDays s)
                    /\ e = entryOf s d)
  /\ (forall e, In e pc ->
        In (Entry.source e) (getSources rawData)
        /\ (exists m, getSourceMetadata rawData (Entry.source e) = Some m)
        /\ (forall freq maxBars, exists view,
              getTradingDayData pc (Entry.source e) (Entry.date e) freq maxBars
              = Some view)).
Proof.
  cbv zeta. rewrite processCharts_eq.
  assert (M : forall e,
            In e (flat_map (fun s => map (entryOf s) (Source.tradingDays s))
                    (loaded rawData)) <->
            exists s d, In s (loaded rawData) /\ In d (Source.tradingDays s)
                        /\ e = entryOf s d).
  { intros e. rewrite in_flat_map. split.
    - intros (s & Hs & I). apply in_map_iff in I. destruct I as (d & <- & Hd).
      exists s, d. auto.
    - intros (s & d & Hs & Hd & ->). exists s. split; [ exact Hs | ].
      apply in_map. exact Hd. }
  split; [ | split; [ exact M | ] ].
  - unfold getTotalTradingDays. clear M.
    induction (loaded rawData) as [ | s ss IH]; [ reflexivity | ].
    simpl. rewrite length_app, length_map, IH. reflexivity.
  - intros e I. pose proof I as I'. apply M in I'.
    destruct I' as (s & d & Hs & Hd & ->).
    unfold loaded in Hs. destruct rawData as [raw | ]; [ | destruct Hs ].
    unfold getSources, getSourceMetadata.
    destruct (RawData.sources raw) as [ss | ]; [ | destruct Hs ].
    simpl in Hs. cbn [entryOf Entry.source].
    split; [ apply in_map; exact Hs | split ].
    + destruct (find _ ss) as [s' | ] eqn:F; [ eexists; reflexivity | ].
      exfalso. apply (find_none _ _ F) in Hs. simpl in Hs.
      rewrite String.eqb_refl in Hs. discriminate.
    + intros freq maxBars. exact (getTradingDayData_total _ _ freq maxBars I).
Qed.

(** *** The highest bar number offered *)

Lemma maxBarsLoop_spec charts : forall m,
  let r := maxBarsLoop charts m in
  (m <= r)%nat
  /\ (forall e, In e charts -> (List.length (Entry.barDirections e) <= r)%nat)
  /\ (r = m \/ exists e, In e charts /\ r = List.length (Entry.barDirections e)).
Proof.
  induction charts as [ | c rest IH]; intros m; simpl.
  - split; [ lia | split; [ intros e [] | left; reflexivity ] ].
  - destruct (IH (if (m <? List.length (Entry.barDirections c))%nat
                  then List.length (Entry.barDirections c) else m))
      as (L & A & O).
    destruct (Nat.ltb_spec m (List.length (Entry.barDirections c))) as [G | G].
    + split; [ lia | split ].
      * intros e [ <- | He ]; [ exact L | exact (A e He) ].
      * right. destruct O as [ -> | (e & He & ->) ].
        -- exists c. split; [ left; reflexivity | reflexivity ].
        -- exists e. split; [ right; exact He | reflexivity ].
    + split; [ exact L | split ].
      * intros e [ <- | He ]; [ lia | exact (A e He) ].
      * destruct O as [ -> | (e & He & ->) ]; [ left; reflexivity | ].
        right. exists e. split; [ right; exact He | reflexivity ].
Qed.

(** X10: [getMaxBarCount] is the greatest number of directions of an
    entry, capped at 120: it never exceeds 120, it covers every entry
    of at most 120 directions, and it is 0 for an empty catalog. *)
Theorem getMaxBarCount_bounds (pc : list Entry.t) :
  (getMaxBarCount pc <= 120)%nat
  /\ (forall e, In e pc ->
        (Nat.min (List.length (Entry.barDirections e)) 120 <= getMaxBarCount pc)%nat)
  /\ (getMaxBarCount pc = 120%nat
      \/ (exists e, In e pc
                    /\ getMaxBarCount pc = List.length (Entry.barDirections e))
      \/ (getMaxBarCount pc = 0%nat
          /\ forall e, In e pc -> Entry.barDirections e = []))
  /\ getMaxBarCount [] = 0%nat.
Proof.
  unfold getMaxBarCount.
  destruct (maxBarsLoop_spec pc 0) as (_ & A & O).
  split; [ apply Nat.le_min_r | split; [ | split; [ | reflexivity ] ] ].
  - intros e He. specialize (A e He). lia.
  - destruct (Nat.le_gt_cases 120 (maxBarsLoop pc 0)) as [G | G].
    + left. apply Nat.min_r. exact G.
    + right. rewrite Nat.min_l by lia.
      destruct O as [ E | (e & He & E) ].
      * right. split; [ exact E | ]. intros e He. specialize (A e He).
        rewrite E in A. destruct (Entry.barDirections e); [ reflexivity | simpl in A; lia ].
      * left. exists e. split; assumption.
Qed.

(** *** How many bars a view has *)

Lemma aggregateToFrequency_length bars freq k :
  ChartRendererFacts.factor freq = Some k ->
  List.length (aggregateToFrequency bars freq)
  = ((List.length bars + k - 1) / k)%nat.
Proof.
  intros F.
  destruct (ChartRendererFacts.aggregateToFrequency_loop bars freq k F) as [Hk ->].
  destruct (ChartRendererFacts.chunksOf_Chunked k Hk _ bars (Nat.le_refl _))
    as [(_ & C & _) <-].
  symmetry. apply (Forall2_length (R := ChartRendererFacts.Rollup)).
  apply ChartRendererFacts.flat_map_rollup. intros c Hc.
  specialize (C c Hc). destruct c; [ simpl in C; lia | discriminate ].
Qed.

(** X20: the view of a day of [N] base bars at a supported frequency of
    factor [k] has ceil(N/k) bars from the option 999 on, and the
    smaller of [maxBars] and ceil(N/k) bars for [0 <= maxBars < 999]. *)
Theorem view_bar_count (pc : list Entry.t) (sourceName date freq : string)
    (maxBars : Z) (k : nat) (chartData : ChartData.t) :
  getTradingDayData pc sourceName date freq maxBars = Some chartData ->
  ChartRendererFacts.factor freq = Some k ->
  exists entry,
    firstFor pc sourceName date entry
    /\ let n := ((List.length (Entry.bars entry) + k - 1) / k)%nat in
       ((999 <= maxBars)%Z -> List.length (ChartData.bars chartData) = n)
       /\ ((0 <= maxBars < 999)%Z ->
           List.length (ChartData.bars chartData) = Nat.min (Z.to_nat maxBars) n).
Proof.
  intros D F.
  destruct (getTradingDayData_found _ _ _ _ _ _ D)
    as (entry & FF & _ & _ & _ & _ & _ & _ & _ & _ & B).
  exists entry. split; [ exact FF | ]. cbv zeta in *.
  rewrite B, (aggregateToFrequency_length _ _ _ F).
  set (agg := aggregateToFrequency (Entry.bars entry) freq).
  assert (La : List.length agg = ((List.length (Entry.bars entry) + k - 1) / k)%nat)
    by (apply aggregateToFrequency_length, F).
  rewrite <- La. split.
  - intros H. destruct (Z.ltb_spec maxBars 999); [ lia | reflexivity ].
  - intros H. destruct (Z.ltb_spec maxBars 999); [ | lia ].
    destruct (Z.ltb_spec maxBars (Z.of_nat (List.length agg))); simpl.
    + unfold slice0. destruct (Z.ltb_spec maxBars 0); [ lia | ].
      apply length_firstn.
    + lia.
Qed.

Lemma view_bar_count_witness :
  exists chartData,
    getTradingDayData [sampleEntry] "ES" "20240102" "15min" 999 = Some chartData
    /\ List.length (ChartData.bars chartData) = 2%nat.
Proof.
  eexists. split; [ reflexivity | ].
  destruct (view_bar_count [sampleEntry] "ES" "20240102" "15min" 999 3 _
              eq_refl eq_refl) as (entry & _ & _).
  reflexivity.
Defined.

(** *** Selections that show nothing *)

Lemma flat_map_nil {A B : Type} (g : A -> list B) (l : list A) :
  (forall x, In x l -> g x = []) -> flat_map g l = [].
Proof.
  induction l as [ | x l IH]; intros H; [ reflexivity | ].
  simpl. rewrite (H x (or_introl eq_refl)), IH; [ reflexivity | ].
  intros y Hy. apply H. right. exact Hy.
Qed.

Lemma generateChart_small pc barFilters entry freq barsOpt :
  (0 <= barsOpt < 5)%Z ->
  generateChart pc barFilters entry freq barsOpt = None.
Proof.
  intros H. unfold generateChart.
  destruct (getTradingDayData pc _ _ freq barsOpt) as [cd | ] eqn:D;
    [ | reflexivity ].
  destruct (getTradingDayData_found _ _ _ _ _ _ D)
    as (e & _ & _ & _ & _ & _ & _ & _ & _ & _ & B).
  cbv zeta in B.
  assert (L : (List.length (ChartData.bars cd) < 5)%nat).
  { rewrite B. set (agg := aggregateToFrequency (Entry.bars e) freq).
    destruct (Z.ltb_spec barsOpt 999); [ | lia ].
    destruct (Z.ltb_spec barsOpt (Z.of_nat (List.length agg))); simpl.
    - unfold slice0. destruct (Z.ltb_spec barsOpt 0); [ lia | ].
      rewrite length_firstn. lia.
    - lia. }
  apply Nat.ltb_lt in L. rewrite L. reflexivity.
Qed.

(** X21: [getFilteredCharts] returns no chart for an empty catalog, for
    an empty selection of frequencies or of bars options, and when
    every bars option lies between 0 and 4, since a view needs 5
    bars. *)
Theorem getFilteredCharts_nothing (pc : list Entry.t) (f : Filters.t) :
  getFilteredCharts [] f = []
  /\ (frequenciesOf f = [] -> getFilteredCharts pc f = [])
  /\ (barsOptionsOf f = [] -> getFilteredCharts pc f = [])
  /\ ((forall barsOpt, In barsOpt (barsOptionsOf f) -> (0 <= barsOpt < 5)%Z) ->
      getFilteredCharts pc f = []).
Proof.
  assert (E : getFilteredCharts pc f
              = flat_map (fun entry =>
                  if entryLevel f entry
                  then flat_map (fun freq =>
                         flat_map (fun barsOpt =>
                           pushed (generateChart pc (barFiltersOf f) entry freq barsOpt))
                         (barsOptionsOf f))
                       (frequenciesOf f)
                  else []) pc).
  { unfold getFilteredCharts. rewrite entriesLoop_eq. reflexivity. }
  split; [ reflexivity | split; [ | split ] ].
  - intros H. rewrite E, H. apply flat_map_nil. intros entry _.
    destruct (entryLevel f entry); reflexivity.
  - intros H. rewrite E, H. apply flat_map_nil. intros entry _.
    destruct (entryLevel f entry); [ | reflexivity ].
    apply flat_map_nil. reflexivity.
  - intros H. rewrite E. apply flat_map_nil. intros entry _.
    destruct (entryLevel f entry); [ | reflexivity ].
    apply flat_map_nil. intros freq _. apply flat_map_nil. intros barsOpt Hb.
    rewrite (generateChart_small _ _ _ _ _ (H barsOpt Hb)). reflexivity.
Qed.

End ProcessorExtras.

(* ================================================================= *)
(** ** Properties of the controller's bar filters and dates *)

Module ControllerExtras.

Import DataProcessor Controller.
Local Open Scope Z_scope.

(** *** Bar filters in ascending order *)

(** The bar numbers of [l] increase strictly: the list is sorted and
    has one filter per bar. *)
Fixpoint ascending (l : list BarFilter.t) : Prop :=
  match l with
  | [] => True
  | f :: rest =>
      Forall (fun g => BarFilter.bar f < BarFilter.bar g) rest /\ ascending rest
  end.

Definition below (n : Z) (f : BarFilter.t) : bool := BarFilter.bar f <? n.
Definition above (n : Z) (f : BarFilter.t) : bool := n <? BarFilter.bar f.

Lemma ascending_app a b :
  ascending a -> ascending b ->
  (forall f g, In f a -> In g b -> BarFilter.bar f < BarFilter.bar g) ->
  ascending (a ++ b).
Proof.
  induction a as [ | x a IH]; intros Ha Hb H; [ exact Hb | ].
  destruct Ha as [F A]. split.
  - apply Forall_app. split; [ exact F | ].
    apply Forall_forall. intros g Hg. apply H; [ left; reflexivity | exact Hg ].
  - apply IH; auto. intros f g Hf Hg. apply H; [ right; exact Hf | exact Hg ].
Qed.

Lemma ascending_app_inv a b :
  ascending (a ++ b) ->
  forall f g, In f a -> In g b -> BarFilter.bar f < BarFilter.bar g.
Proof.
  induction a as [ | x a IH]; intros H f g Hf Hg; [ destruct Hf | ].
  destruct H as [F A]. destruct Hf as [ <- | Hf ].
  - rewrite Forall_forall in F. apply F. apply in_or_app. right. exact Hg.
  - exact (IH A f g Hf Hg).
Qed.

Lemma ascending_filter p l : ascending l -> ascending (filter p l).
Proof.
  induction l as [ | x l IH]; intros H; [ exact I | ].
  destruct H as [F A]. simpl. destruct (p x); [ | exact (IH A) ].
  split; [ | exact (IH A) ].
  rewrite Forall_forall in *. intros g Hg. apply filter_In in Hg.
  apply F. tauto.
Qed.

Lemma insertByBar_end x acc :
  (forall g, In g acc -> BarFilter.bar g <= BarFilter.bar x) ->
  insertByBar x acc = acc ++ [x].
Proof.
  induction acc as [ | g acc IH]; intros H; [ reflexivity | ].
  simpl. destruct (Z.leb_spec (BarFilter.bar g) (BarFilter.bar x)) as [L | L].
  - rewrite IH; [ reflexivity | ]. intros g' Hg'. apply H. right. exact Hg'.
  - specialize (H g (or_introl eq_refl)). lia.
Qed.

(** Sorting an ascending list changes nothing. *)
Lemma sortByBar_ascending l : ascending l -> sortByBar l = l.
Proof.
  unfold sortByBar.
  assert (G : forall l acc, ascending (acc ++ l) ->
                fold_left (fun sorted f => insertByBar f sorted) l acc = acc ++ l).
  { clear l. induction l as [ | x l IH]; intros acc H; simpl.
    - symmetry. apply app_nil_r.
    - rewrite insertByBar_end.
      + rewrite IH; rewrite <- app_assoc; [ reflexivity | exact H ].
      + intros g Hg.
        pose proof (ascending_app_inv acc (x :: l) H g x Hg (or_introl eq_refl)).
        lia. }
  intros H. exact (G l [] H).
Qed.

Lemma filter_all {A : Type} (p : A -> bool) l :
  (forall a, In a l -> p a = true) -> filter p l = l.
Proof.
  induction l as [ | x l IH]; intros H; [ reflexivity | ].
  simpl. rewrite (H x (or_introl eq_refl)), IH; [ reflexivity | ].
  intros a Ha. apply H. right. exact Ha.
Qed.

Lemma filter_none {A : Type} (p : A -> bool) l :
  (forall a, In a l -> p a = false) -> filter p l = [].
Proof.
  induction l as [ | x l IH]; intros H; [ reflexivity | ].
  simpl. rewrite (H x (or_introl eq_refl)). apply IH.
  intros a Ha. apply H. right. exact Ha.
Qed.

(** Inserting into an ascending list. *)
Lemma insertByBar_split x l : ascending l ->
  insertByBar x l
  = filter (fun g => BarFilter.bar g <=? BarFilter.bar x) l
    ++ [x] ++ filter (above (BarFilter.bar x)) l.
Proof.
  unfold above. induction l as [ | g l IH]; intros H; [ reflexivity | ].
  destruct H as [F A]. simpl.
  destruct (Z.leb_spec (BarFilter.bar g) (BarFilter.bar x)) as [L | L].
  - destruct (Z.ltb_spec (BarFilter.bar x) (BarFilter.bar g)); [ lia | ].
    rewrite (IH A). reflexivity.
  - destruct (Z.ltb_spec (BarFilter.bar x) (BarFilter.bar g)); [ | lia ].
    rewrite Forall_forall in F.
    rewrite (filter_none (fun g0 => BarFilter.bar g0 <=? BarFilter.bar x) l).
    + rewrite (filter_all (fun f => BarFilter.bar x <? BarFilter.bar f) l).
      * reflexivity.
      * intros a Ha. specialize (F a Ha). apply Z.ltb_lt. lia.
    + intros a Ha. specialize (F a Ha). apply Z.leb_gt. lia.
Qed.

(** Replacing the filter of bar [n] in an ascending list that has one. *)
Lemma replace_split n new l : ascending l ->
  existsb (fun f => BarFilter.bar f =? n) l = true ->
  map (fun f => if BarFilter.bar f =? n then new else f) l
  = filter (below n) l ++ [new] ++ filter (above n) l.
Proof.
  unfold below, above. induction l as [ | g l IH]; intros H E; [ discriminate | ].
  destruct H as [F A]. rewrite Forall_forall in F. simpl in E |- *.
  destruct (Z.eqb_spec (BarFilter.bar g) n) as [Q | Q].
  - destruct (Z.ltb_spec (BarFilter.bar g) n); [ lia | ].
    destruct (Z.ltb_spec n (BarFilter.bar g)); [ lia | ].
    rewrite (filter_none (fun f => BarFilter.bar f <? n)).
    + rewrite (filter_all (fun f => n <? BarFilter.bar f)).
      * simpl. f_equal. rewrite <- (map_id l) at 2. apply map_ext_in.
        intros a Ha. specialize (F a Ha).
        destruct (Z.eqb_spec (BarFilter.bar a) n); [ lia | reflexivity ].
      * intros a Ha. specialize (F a Ha). apply Z.ltb_lt. lia.
    + intros a Ha. specialize (F a Ha). apply Z.ltb_ge. lia.
  - simpl in E. apply existsb_exists in E. destruct E as (h & Hh & Eh).
    apply Z.eqb_eq in Eh. specialize (F h Hh).
    destruct (Z.ltb_spec (BarFilter.bar g) n); [ | lia ].
    destruct (Z.ltb_spec n (BarFilter.bar g)); [ lia | ].
    simpl. f_equal. apply IH; [ exact A | ].
    apply existsb_exists. exists h. split; [ exact Hh | apply Z.eqb_eq, Eh ].
Qed.

Lemma split_ascending n new l :
  ascending l -> BarFilter.bar new = n ->
  ascending (filter (below n) l ++ [new] ++ filter (above n) l).
Proof.
  intros A E. apply ascending_app; [ apply ascending_filter, A | | ].
  - simpl. split; [ | apply ascending_filter, A ].
    apply Forall_forall. intros g Hg. apply filter_In in Hg.
    destruct Hg as [_ Hg]. unfold above in Hg. apply Z.ltb_lt in Hg. lia.
  - intros f g Hf Hg. apply filter_In in Hf. destruct Hf as [_ Hf].
    unfold below in Hf. apply Z.ltb_lt in Hf.
    destruct Hg as [ <- | Hg ]; [ lia | ].
    apply filter_In in Hg. destruct Hg as [_ Hg].
    unfold above in Hg. apply Z.ltb_lt in Hg. lia.
Qed.

(** What [addBarFilter] does to an ascending list: the filters of lower
    bars, the new filter, the filters of higher bars. *)
Lemma addBarFilter_split l n direction :
  ascending l -> n <> 0 ->
  addBarFilter l (Some n) direction
  = filter (below n) l ++ [barFilterOf n direction] ++ filter (above n) l.
Proof.
  intros A N. unfold addBarFilter.
  destruct (Z.eqb_spec n 0); [ contradiction | ]. cbv zeta.
  destruct (existsb (fun f => BarFilter.bar f =? n) l) eqn:E.
  - rewrite (replace_split n _ l A E).
    apply sortByBar_ascending. apply split_ascending; [ exact A | reflexivity ].
  - unfold sortByBar. rewrite fold_left_app. simpl.
    fold (sortByBar l). rewrite (sortByBar_ascending l A).
    rewrite (insertByBar_split _ l A). cbn [barFilterOf BarFilter.bar].
    f_equal. apply filter_ext_in. intros a Ha. unfold below.
    assert (BarFilter.bar a <> n).
    { intros C. assert (existsb (fun f => BarFilter.bar f =? n) l = true).
      { apply existsb_exists. exists a. split; [ exact Ha | apply Z.eqb_eq, C ]. }
      congruence. }
    destruct (Z.leb_spec (BarFilter.bar a) n);
      destruct (Z.ltb_spec (BarFilter.bar a) n); try reflexivity; lia.
Qed.

Lemma addBarFilter_ascending l barNum direction :
  ascending l -> ascending (addBarFilter l barNum direction).
Proof.
  intros A. destruct barNum as [n | ]; [ | exact A ].
  destruct (Z.eq_dec n 0) as [ -> | N ]; [ exact A | ].
  rewrite (addBarFilter_split _ _ _ A N).
  apply split_ascending; [ exact A | reflexivity ].
Qed.

(** X11: the operations on the global [barFilters] keep it in strictly
    ascending order of bar number, hence with one filter per bar:
    adding a filter (whatever the page's selection, NaN and 0
    included) and removing one both preserve it. *)
Theorem barFilters_ascending (barFilters : list BarFilter.t) :
  ascending barFilters ->
  (forall barNum direction, ascending (addBarFilter barFilters barNum direction))
  /\ (forall barNum, ascending (removeBarFilter barFilters barNum))
  /\ (forall direction,
        addBarFilter barFilters None direction = barFilters
        /\ addBarFilter barFilters (Some 0) direction = barFilters).
Proof.
  intros A. split; [ | split ].
  - intros barNum direction. apply addBarFilter_ascending, A.
  - intros n. apply ascending_filter, A.
  - intros direction. split; reflexivity.
Qed.

Lemma barFilters_ascending_witness :
  ascending
    (addBarFilter [barFilterOf 1 "UP"; barFilterOf 4 "DOWN"] (Some 2) "FLAT").
Proof.
  refine (proj1 (barFilters_ascending [barFilterOf 1 "UP"; barFilterOf 4 "DOWN"] _)
            (Some 2) "FLAT"%string).
  simpl. repeat constructor.
Defined.

(** X12: after adding a filter for bar [n] to an ascending list, the
    list holds exactly the new filter for bar [n] and the old filters of
    the other bars; an older filter for bar [n] is replaced, so a second
    choice for the same bar wins over the first. *)
Theorem addBarFilter_lookup (barFilters : list BarFilter.t) (n : Z)
    (direction : string) :
  ascending barFilters -> n <> 0 ->
  let added := addBarFilter barFilters (Some n) direction in
  (forall f, In f added <->
     f = barFilterOf n direction
     \/ (In f barFilters /\ BarFilter.bar f <> n))
  /\ filter (fun f => BarFilter.bar f =? n) added = [barFilterOf n direction]
  /\ (forall direction',
        addBarFilter added (Some n) direction'
        = addBarFilter barFilters (Some n) direction').
Proof.
  intros A N. cbv zeta.
  assert (B : ascending (addBarFilter barFilters (Some n) direction))
    by (apply addBarFilter_ascending, A).
  rewrite (addBarFilter_split _ _ _ A N) in *.
  set (new := barFilterOf n direction) in *.
  split; [ | split ].
  - intros f. rewrite in_app_iff. simpl. rewrite !filter_In.
    unfold below, above. rewrite !Z.ltb_lt. split.
    + intros [ [H1 H2] | [ <- | [H1 H2] ] ];
        [ right; split; [ exact H1 | lia ] | left; reflexivity
        | right; split; [ exact H1 | lia ] ].
    + intros [ -> | [H1 H2] ]; [ right; left; reflexivity | ].
      destruct (Z.lt_total (BarFilter.bar f) n) as [ L | [ L | L ] ];
        [ left; auto | contradiction | right; right; auto ].
  - rewrite !filter_app. simpl.
    rewrite (filter_none _ (filter (below n) barFilters)),
            (filter_none _ (filter (above n) barFilters)).
    + unfold new at 1. simpl. rewrite Z.eqb_refl. reflexivity.
    + intros a Ha. apply filter_In in Ha. destruct Ha as [_ Ha].
      unfold above in Ha. apply Z.ltb_lt in Ha. apply Z.eqb_neq. lia.
    + intros a Ha. apply filter_In in Ha. destruct Ha as [_ Ha].
      unfold below in Ha. apply Z.ltb_lt in Ha. apply Z.eqb_neq. lia.
  - intros direction'. rewrite (addBarFilter_split _ _ _ B N).
    rewrite (addBarFilter_split _ _ _ A N).
    assert (Bn : below n new = false)
      by (unfold below, new; simpl; apply Z.ltb_irrefl).
    assert (An : above n new = false)
      by (unfold above, new; simpl; apply Z.ltb_irrefl).
    rewrite !filter_app. cbn [filter]. rewrite Bn, An.
    assert (Fb : forall p q, (forall a, p a = true -> q a = false) ->
                  filter q (filter p barFilters) = [])
      by (intros p q H; apply filter_none; intros a Ha;
          apply filter_In in Ha; apply H; tauto).
    assert (Fs : forall p, filter p (filter p barFilters) = filter p barFilters)
      by (intros p; apply filter_all; intros a Ha; apply filter_In in Ha; tauto).
    rewrite (Fs (below n)), (Fs (above n)).
    rewrite (Fb (above n) (below n)), (Fb (below n) (above n)).
    + simpl. rewrite app_nil_r. reflexivity.
    + unfold below, above. intros a H. apply Z.ltb_lt in H. apply Z.ltb_ge. lia.
    + unfold below, above. intros a H. apply Z.ltb_lt in H. apply Z.ltb_ge. lia.
Qed.

Lemma addBarFilter_lookup_witness :
  filter (fun f => BarFilter.bar f =? 4)
    (addBarFilter [barFilterOf 1 "UP"; barFilterOf 4 "DOWN"] (Some 4) "FLAT")
  = [barFilterOf 4 "FLAT"].
Proof.
  refine (proj1 (proj2 (addBarFilter_lookup
                          [barFilterOf 1 "UP"; barFilterOf 4 "DOWN"] 4 "FLAT" _ _))).
  - simpl. repeat constructor.
  - discriminate.
Defined.

(** X13: removing undoes adding: on an ascending list, removing bar [n]
    after adding a filter for it gives the list without its filter for
    bar [n], which is the list itself when it had none; and after a
    removal no filter for that bar is left. *)
Theorem removeBarFilter_addBarFilter (barFilters : list BarFilter.t) (n : Z)
    (direction : string) :
  ascending barFilters -> n <> 0 ->
  removeBarFilter (addBarFilter barFilters (Some n) direction) n
  = removeBarFilter barFilters n
  /\ ((forall f, In f barFilters -> BarFilter.bar f <> n) ->
      removeBarFilter (addBarFilter barFilters (Some n) direction) n = barFilters)
  /\ (forall f, In f (removeBarFilter barFilters n) -> BarFilter.bar f <> n).
Proof.
  intros A N.
  assert (E : removeBarFilter (addBarFilter barFilters (Some n) direction) n
              = removeBarFilter barFilters n).
  { rewrite (addBarFilter_split _ _ _ A N). unfold removeBarFilter.
    rewrite !filter_app. simpl. rewrite Z.eqb_refl. simpl.
    clear N. induction barFilters as [ | g l IH]; [ reflexivity | ].
    destruct A as [F A]. rewrite Forall_forall in F.
    simpl. unfold below at 1, above at 1.
    destruct (Z.ltb_spec (BarFilter.bar g) n) as [L | L].
    - destruct (Z.ltb_spec n (BarFilter.bar g)); [ lia | ].
      destruct (Z.eqb_spec (BarFilter.bar g) n); [ lia | ].
      simpl. destruct (Z.eqb_spec (BarFilter.bar g) n); [ lia | ].
      simpl. f_equal. exact (IH A).
    - rewrite (filter_none (below n) l).
      + simpl.
        assert (K : filter (fun f => negb (BarFilter.bar f =? n)) l = l).
        { apply filter_all. intros a Ha. specialize (F a Ha).
          apply negb_true_iff, Z.eqb_neq. lia. }
        assert (K' : filter (fun f => negb (BarFilter.bar f =? n)) (filter (above n) l) = l).
        { rewrite (filter_all (above n)), K; [ reflexivity | ].
          intros a Ha. specialize (F a Ha). apply Z.ltb_lt. lia. }
        destruct (Z.ltb_spec n (BarFilter.bar g)) as [G | G]; simpl.
        * destruct (Z.eqb_spec (BarFilter.bar g) n); [ lia | ]. simpl.
          rewrite K, K'. reflexivity.
        * destruct (Z.eqb_spec (BarFilter.bar g) n); [ | lia ]. simpl.
          rewrite K, K'. reflexivity.
      + intros a Ha. specialize (F a Ha). apply Z.ltb_ge. lia. }
  split; [ exact E | split ].
  - intros H. rewrite E. apply filter_all. intros a Ha.
    apply negb_true_iff, Z.eqb_neq. exact (H a Ha).
  - intros f Hf. apply filter_In in Hf. destruct Hf as [_ Hf].
    apply negb_true_iff, Z.eqb_neq in Hf. exact Hf.
Qed.

Lemma removeBarFilter_addBarFilter_witness :
  removeBarFilter
    (addBarFilter [barFilterOf 1 "UP"; barFilterOf 4 "DOWN"] (Some 2) "FLAT") 2
  = [barFilterOf 1 "UP"; barFilterOf 4 "DOWN"].
Proof.
  refine (proj1 (proj2 (removeBarFilter_addBarFilter
                          [barFilterOf 1 "UP"; barFilterOf 4 "DOWN"] 2 "FLAT" _ _)) _).
  - simpl. repeat constructor.
  - discriminate.
  - intros f [ <- | [ <- | [] ] ]; discriminate.
Defined.

End ControllerExtras.

(* ================================================================= *)
(** ** Further properties of the trade simulator *)

Module SimulatorExtras.

Import JSNum JSNumFacts ChartRenderer DataProcessor TradeSimulator.
Import TradeSimulatorFacts.
Local Open Scope float_scope.

(** *** When a call raises *)

Lemma simulateOne_throws chart p :
  simulateOne chart p = ThrowTypeError <->
  ge_length (Params.triggerBar p - 1) (List.length (Chart.bars chart)) = false
  /\ index_of (Params.triggerBar p - 1) = None.
Proof.
  destruct (ge_length (Params.triggerBar p - 1) (List.length (Chart.bars chart)))
    eqn:G.
  - rewrite (simulateOne_short _ _ G).
    split; [ discriminate | intros [? _]; discriminate ].
  - destruct (index_of (Params.triggerBar p - 1)) as [i | ] eqn:Hi.
    + destruct (index_in_range _ _ _ Hi G) as [tb Hn].
      rewrite (simulateOne_triggered _ _ _ _ Hi Hn).
      destruct (rangeOf tb <=? 0);
        (split; [ discriminate | intros [_ ?]; discriminate ]).
    + unfold simulateOne. rewrite G, Hi. split; auto.
Qed.

Lemma simulateLoop_throws p charts : forall t,
  simulateLoop p charts t = ThrowTypeError <->
  exists chart, In chart charts /\ simulateOne chart p = ThrowTypeError.
Proof.
  induction charts as [ | c rest IH]; intros t; simpl.
  - split; [ discriminate | intros (? & [] & _) ].
  - destruct (simulateOne c p) as [r | ] eqn:E.
    + rewrite IH. split.
      * intros (x & Hx & Tx). exists x. split; [ right; exact Hx | exact Tx ].
      * intros (x & [ <- | Hx ] & Tx); [ congruence | ].
        exists x. split; assumption.
    + split; [ | reflexivity ]. intros _. exists c.
      split; [ left; reflexivity | exact E ].
Qed.

(** X14: [simulateOne] raises exactly when triggerBar - 1 is below the
    number of bars without being an array index; [simulate] with
    parameters that [isValid] accepts raises exactly when [simulateOne]
    raises on one of the charts, so with a trigger bar that is not a bar
    number it raises as soon as one chart has enough bars. *)
Theorem simulate_raises (charts : list Chart.t) (p : Params.t) :
  let triggerIndex := Params.triggerBar p - 1 in
  (forall chart,
     simulateOne chart p = ThrowTypeError <->
     ge_length triggerIndex (List.length (Chart.bars chart)) = false
     /\ index_of triggerIndex = None)
  /\ (isValid (Some p) = true ->
      (simulate charts (Some p) = ThrowTypeError <->
       exists chart, In chart charts /\ simulateOne chart p = ThrowTypeError))
  /\ (isValid (Some p) = false -> simulate charts (Some p) <> ThrowTypeError)
  /\ (barNumber (Params.triggerBar p) -> simulate charts (Some p) <> ThrowTypeError).
Proof.
  cbv zeta.
  assert (V : isValid (Some p) = true ->
              (simulate charts (Some p) = ThrowTypeError <->
               exists chart, In chart charts /\ simulateOne chart p = ThrowTypeError)).
  { intros H. unfold simulate. rewrite H. simpl negb. cbv iota.
    rewrite <- (simulateLoop_throws p charts
                  {| trades := []; wins := 0; losses := 0; skipped := 0; totalPnL := 0 |}).
    destruct (simulateLoop p charts _); split; try discriminate; reflexivity. }
  split; [ intros chart; apply simulateOne_throws | ].
  split; [ exact V | split ].
  - intros H. unfold simulate. rewrite H. discriminate.
  - intros B. destruct (isValid (Some p)) eqn:H.
    + intros T. apply (V eq_refl) in T. destruct T as (c & _ & T).
      destruct (simulateOne_returns c p B) as [r R]. congruence.
    + unfold simulate. rewrite H. discriminate.
Qed.

(** *** Concatenating lists of views *)

Lemma tradeOf_unique p charts : forall ts ts',
  Forall2 (tradeOf p) charts ts -> Forall2 (tradeOf p) charts ts' -> ts = ts'.
Proof.
  induction charts as [ | c rest IH]; intros ts ts' F F'.
  - inversion F; inversion F'; reflexivity.
  - inversion F as [ | ? t ? us [K R] Fr]; subst.
    inversion F' as [ | ? t' ? us' [K' R'] Fr']; subst.
    f_equal; [ | exact (IH _ _ Fr Fr') ].
    destruct t as [k r], t' as [k' r']. simpl in *.
    congruence.
Qed.

Lemma count_app o ts ts' : count o (ts ++ ts') = (count o ts + count o ts')%nat.
Proof. unfold count. rewrite filter_app, length_app. reflexivity. Qed.

(** X15: with valid parameters the statistics of a concatenation of two
    lists of views add up: its trades are the trades of the first list
    followed by those of the second, and its counts of wins, losses,
    skipped and decisive trades are the sums of theirs. *)
Theorem simulate_app (charts charts' : list Chart.t) (p : Params.t) :
  validParams p ->
  exists s s' s'',
    simulate charts (Some p) = Return (Some s)
    /\ simulate charts' (Some p) = Return (Some s')
    /\ simulate (charts ++ charts') (Some p) = Return (Some s'')
    /\ Stats.trades s'' = Stats.trades s ++ Stats.trades s'
    /\ Stats.wins s'' = (Stats.wins s + Stats.wins s')%nat
    /\ Stats.losses s'' = (Stats.losses s + Stats.losses s')%nat
    /\ Stats.skipped s'' = (Stats.skipped s + Stats.skipped s')%nat
    /\ Stats.decisive s'' = (Stats.decisive s + Stats.decisive s')%nat.
Proof.
  intros V.
  destruct (simulate_valid charts p V) as (ts & F & E).
  destruct (simulate_valid charts' p V) as (ts' & F' & E').
  destruct (simulate_valid (charts ++ charts') p V) as (ts'' & F'' & E'').
  assert (T : ts'' = ts ++ ts')
    by (apply (tradeOf_unique p (charts ++ charts')); [ exact F'' | ];
        apply Forall2_app; assumption).
  subst ts''.
  eexists. eexists. eexists.
  split; [ exact E | split; [ exact E' | split; [ exact E'' | ] ] ].
  cbn [Stats.trades Stats.wins Stats.losses Stats.skipped Stats.decisive].
  rewrite !count_app. repeat split; lia.
Qed.

Lemma simulate_app_witness :
  exists s'',
    simulate ([chartOf winningDay "a"] ++ [chartOf losingDay "b"])
      (Some (long 1 50 50)) = Return (Some s'')
    /\ Stats.decisive s'' = 2%nat.
Proof.
  destruct (simulate_app [chartOf winningDay "a"] [chartOf losingDay "b"]
              (long 1 50 50) (conj eq_refl (ex_intro _ 0%nat eq_refl)))
    as (s & s' & s'' & E & E' & E'' & _ & _ & _ & _ & D).
  exists s''. split; [ exact E'' | ].
  rewrite D. injection E as <-. injection E' as <-. reflexivity.
Defined.

(** *** The shape of a result *)

(** A result as the simulator builds them: a skipped trade has pnl 0 and
    a reason, a decided trade has no reason and its three prices; the
    target and the stop are reported together, and only with the entry. *)
Definition wellFormed (r : Result.t) : Prop :=
  (Result.outcome r = SKIP <-> Result.reason r <> None)
  /\ (Result.outcome r = SKIP -> Result.pnl r = 0)
  /\ (Result.outcome r <> SKIP ->
      Result.entry r <> None /\ Result.target r <> None /\ Result.stop r <> None)
  /\ (Result.target r <> None <-> Result.stop r <> None)
  /\ (Result.target r <> None -> Result.entry r <> None)
  /\ In (Result.reason r)
        [None; Some "not enough bars"; Some "zero range"; Some "both hit";
         Some "end of day"]%string.

Lemma scan_wellFormed d e t s tp sp l : wellFormed (scan d e t s tp sp l).
Proof.
  induction l as [ | b l IH]; simpl.
  - unfold wellFormed; simpl.
    repeat split; try discriminate; try congruence; auto 10.
  - destruct (hitTarget d tp b); destruct (hitStop d sp b); simpl;
      try exact IH; unfold wellFormed; simpl;
      repeat split; try discriminate; try congruence; auto 10.
Qed.

(** X16: every result that [simulateOne] returns is well formed: SKIP
    exactly when a reason is given, pnl 0 when skipped, the three prices
    present when the trade is decided, target and stop reported
    together, and the reason one of the four reason codes. *)
Theorem simulateOne_wellFormed (chart : Chart.t) (p : Params.t) (r : Result.t) :
  simulateOne chart p = Return r -> wellFormed r.
Proof.
  unfold simulateOne.
  destruct (ge_length _ _).
  { intros [= <-]. unfold wellFormed; simpl.
    repeat split; try discriminate; try congruence; auto 10. }
  destruct (index_of _) as [i | ]; [ | discriminate ].
  destruct (nth_error _ i) as [tb | ]; [ | discriminate ].
  destruct (_ <=? 0).
  { intros [= <-]. unfold wellFormed; simpl.
    repeat split; try discriminate; try congruence; auto 10. }
  intros [= <-]. apply scan_wellFormed.
Qed.

Lemma simulateOne_wellFormed_witness :
  wellFormed (resolved WIN 5 None 105 110 100).
Proof.
  exact (simulateOne_wellFormed (chartOf winningDay "a") (long 1 50 50) _ eq_refl).
Defined.

(** *** What a trade depends on *)

(** X17: a trade does not depend on what precedes its trigger bar, nor
    on anything of the view but its bars: two views that agree from the
    trigger bar on give the same result. *)
Theorem simulateOne_from_trigger (chart chart' : Chart.t) (p : Params.t) (i : nat) :
  index_of (Params.triggerBar p - 1) = Some i ->
  (i < List.length (Chart.bars chart))%nat ->
  skipn i (Chart.bars chart) = skipn i (Chart.bars chart') ->
  simulateOne chart p = simulateOne chart' p.
Proof.
  intros Hi L E.
  assert (N : nth_error (Chart.bars chart) i = nth_error (Chart.bars chart') i)
    by (rewrite <- !hd_error_skipn, E; reflexivity).
  assert (S' : skipn (S i) (Chart.bars chart) = skipn (S i) (Chart.bars chart')).
  { change (S i) with (1 + i)%nat. rewrite <- !skipn_skipn, E. reflexivity. }
  destruct (nth_error (Chart.bars chart) i) as [tb | ] eqn:Hn.
  - rewrite (simulateOne_triggered _ _ _ _ Hi Hn).
    rewrite (simulateOne_triggered chart' _ _ _ Hi (eq_sym N)).
    rewrite S'. reflexivity.
  - apply nth_error_None in Hn. lia.
Qed.

Lemma simulateOne_from_trigger_witness :
  simulateOne (chartOf (mkBar 0 1 2 0 1 :: winningDay) "a") (long 2 50 50)
  = simulateOne (chartOf (mkBar 9 50 60 40 55 :: winningDay) "b") (long 2 50 50).
Proof.
  apply (simulateOne_from_trigger _ _ _ 1%nat); [ reflexivity | simpl; lia | reflexivity ].
Defined.

Lemma scan_extend d e t s tp sp l more :
  Result.reason (scan d e t s tp sp l) <> Some "end of day"%string ->
  scan d e t s tp sp (l ++ more) = scan d e t s tp sp l.
Proof.
  induction l as [ | b l IH]; simpl; [ congruence | ].
  destruct (hitTarget d tp b); destruct (hitStop d sp b); simpl; auto.
Qed.

(** X18: a trade that is resolved stays resolved: when [simulateOne]
    returns anything but 'not enough bars' or 'end of day' (a WIN, a
    LOSS, 'both hit' or 'zero range'), it returns the same result on
    every view whose bars continue those of the first. *)
Theorem simulateOne_resolved_final (chart chart' : Chart.t) (p : Params.t)
    (r : Result.t) (more : list Bar) :
  simulateOne chart p = Return r ->
  Result.reason r <> Some "not enough bars"%string ->
  Result.reason r <> Some "end of day"%string ->
  Chart.bars chart' = Chart.bars chart ++ more ->
  simulateOne chart' p = Return r.
Proof.
  intros R N1 N2 Eb.
  destruct (ge_length (Params.triggerBar p - 1) (List.length (Chart.bars chart)))
    eqn:G.
  { rewrite (simulateOne_short _ _ G) in R.
    assert (r = notEnoughBars) by congruence. subst r.
    exfalso. apply N1. reflexivity. }
  destruct (index_of (Params.triggerBar p - 1)) as [i | ] eqn:Hi.
  - destruct (index_in_range _ _ _ Hi G) as [tb Hn].
    assert (L : (i < List.length (Chart.bars chart))%nat)
      by (apply nth_error_Some; congruence).
    rewrite (simulateOne_triggered _ _ _ _ Hi Hn) in R.
    assert (Hn' : nth_error (Chart.bars chart') i = Some tb)
      by (rewrite Eb, nth_error_app1 by exact L; exact Hn).
    rewrite (simulateOne_triggered _ _ _ _ Hi Hn').
    destruct (rangeOf tb <=? 0); [ exact R | ].
    assert (Er : r = scanAfter p tb (skipn (S i) (Chart.bars chart)))
      by congruence.
    subst r. f_equal.
    rewrite Eb, skipn_app.
    replace (S i - List.length (Chart.bars chart))%nat with 0%nat by lia.
    rewrite skipn_0. apply scan_extend. exact N2.
  - assert (T : simulateOne chart p = ThrowTypeError)
      by (apply simulateOne_throws; auto).
    congruence.
Qed.

Lemma simulateOne_resolved_final_witness :
  simulateOne (chartOf (winningDay ++ [mkBar 2 106 107 90 91]) "b") (long 1 50 50)
  = Return (resolved WIN 5 None 105 110 100).
Proof.
  apply (simulateOne_resolved_final (chartOf winningDay "a") _ (long 1 50 50) _
           [mkBar 2 106 107 90 91]);
    [ reflexivity | discriminate | discriminate | reflexivity ].
Defined.

(** *** The order of the views *)

(** [simulateOne] gives the outcome [o] on [chart]. *)
Definition yields (p : Params.t) (o : Outcome) (chart : Chart.t) : bool :=
  match simulateOne chart p with
  | Return r =>
      match o, Result.outcome r with
      | WIN, WIN | LOSS, LOSS | SKIP, SKIP => true
      | _, _ => false
      end
  | ThrowTypeError => false
  end.

Lemma count_yields p o charts ts :
  Forall2 (tradeOf p) charts ts ->
  count o ts = List.length (filter (yields p o) charts).
Proof.
  induction 1 as [ | c t cs ts' [_ R] _ IH]; [ reflexivity | ].
  rewrite count_cons, IH. simpl. unfold yields at 2, is_outcome. rewrite R.
  destruct o, (Result.outcome (Trade.result t)); reflexivity.
Qed.

Lemma filter_length_Permutation {A : Type} (q : A -> bool) l l' :
  Permutation l l' -> List.length (filter q l) = List.length (filter q l').
Proof.
  induction 1 as [ | x l l' _ IH | x y l | l l' l'' _ IH1 _ IH2 ]; simpl.
  - reflexivity.
  - destruct (q x); simpl; rewrite IH; reflexivity.
  - destruct (q x), (q y); reflexivity.
  - congruence.
Qed.

(** X22: with valid parameters, the counts of wins, losses, skipped and
    decisive trades and the win rate do not depend on the order of the
    views. *)
Theorem simulate_Permutation (charts charts' : list Chart.t) (p : Params.t) :
  validParams p ->
  Permutation charts charts' ->
  exists s s',
    simulate charts (Some p) = Return (Some s)
    /\ simulate charts' (Some p) = Return (Some s')
    /\ Stats.wins s = Stats.wins s'
    /\ Stats.losses s = Stats.losses s'
    /\ Stats.skipped s = Stats.skipped s'
    /\ Stats.decisive s = Stats.decisive s'
    /\ Stats.winRate s = Stats.winRate s'.
Proof.
  intros V P.
  destruct (simulate_valid charts p V) as (ts & F & E).
  destruct (simulate_valid charts' p V) as (ts' & F' & E').
  eexists. eexists. split; [ exact E | split; [ exact E' | ] ].
  cbn [Stats.wins Stats.losses Stats.skipped Stats.decisive Stats.winRate].
  assert (C : forall o, count o ts = count o ts').
  { intros o. rewrite (count_yields p o _ _ F), (count_yields p o _ _ F').
    apply filter_length_Permutation, P. }
  rewrite !C. repeat split.
Qed.

Lemma simulate_Permutation_witness :
  exists s s',
    simulate [chartOf winningDay "a"; chartOf losingDay "b"] (Some (long 1 50 50))
    = Return (Some s)
    /\ simulate [chartOf losingDay "b"; chartOf winningDay "a"] (Some (long 1 50 50))
       = Return (Some s')
    /\ Stats.winRate s = Stats.winRate s'.
Proof.
  destruct (simulate_Permutation
              [chartOf winningDay "a"; chartOf losingDay "b"]
              [chartOf losingDay "b"; chartOf winningDay "a"]
              (long 1 50 50) (conj eq_refl (ex_intro _ 0%nat eq_refl))
              (perm_swap _ _ _))
    as (s & s' & E & E' & _ & _ & _ & _ & W).
  exists s, s'. split; [ exact E | split; [ exact E' | exact W ] ].
Defined.

End SimulatorExtras.

(* ================================================================= *)
(** ** Dates *)

Module DateExtras.

Import Controller.
Local Open Scope string_scope.

(** X19: [formatDate] answers 'Unknown' for an empty date, leaves a date
    that does not have 8 characters as it is, and writes an 8-character
    date YYYYMMDD as YYYY-MM-DD: 10 characters, with the dashes in
    places 4 and 7, from which the date is read back by dropping them. *)
Theorem formatDate_cases (dateStr : string) :
  (dateStr = "" -> formatDate dateStr = "Unknown")
  /\ (dateStr <> "" -> String.length dateStr <> 8%nat -> formatDate dateStr = dateStr)
  /\ (String.length dateStr = 8%nat ->
      let r := formatDate dateStr in
      String.length r = 10%nat
      /\ get 4 r = Some "-"%char /\ get 7 r = Some "-"%char
      /\ substring 0 4 r ++ substring 5 2 r ++ substring 8 2 r = dateStr
      /\ substring 0 4 r = substring 0 4 dateStr
      /\ substring 5 2 r = substring 4 2 dateStr
      /\ substring 8 2 r = substring 6 2 dateStr).
Proof.
  split; [ | split ].
  - intros ->. reflexivity.
  - intros N L. unfold formatDate.
    destruct (String.eqb_spec dateStr ""); [ contradiction | ].
    destruct (Nat.eqb_spec (String.length dateStr) 8); [ contradiction | ].
    reflexivity.
  - intros L.
    do 8 (destruct dateStr as [ | ? dateStr ]; [ discriminate | ]).
    destruct dateStr; [ | discriminate ].
    cbv zeta. unfold formatDate. simpl.
    repeat split.
Qed.

End DateExtras.
